(** * tw-geodata: the GEO! polygon file loader and the point-in-polygon hit test

    A shallow embedding of [src/geodata.cc]: the C core ([geo_data_hit_test],
    [geo_data_destroy], [geo_data_create]) and the part of the node binding
    that decides what a caller sees ([GeoData::GeoData], [GeoData::~GeoData],
    [GeoData::Contains]).

    Platform assumptions, as on the LP64 little-endian machines the addon is
    built for: [unsigned int] and [int] are 32 bits wide, [size_t] is 64 bits
    wide, [double] is IEEE 754 binary64 (the kernel's primitive [float]),
    integers and doubles are stored least significant byte first. *)

From Stdlib.Strings Require Import String Byte.
From Stdlib Require Import ZArith List Bool Lia Floats.
Import ListNotations.

Local Open Scope Z_scope.

(** ** Machine integers *)

(** Conversion to [unsigned int]: reduction modulo 2^32. *)
Definition u32 (z : Z) : Z := z mod 2 ^ 32.

(** Conversion to [size_t]: reduction modulo 2^64. *)
Definition usize (z : Z) : Z := z mod 2 ^ 64.

(** Conversion of an [unsigned int] to [int] (two's complement). *)
Definition to_int (z : Z) : Z := if z <? 2 ^ 31 then z else z - 2 ^ 32.

(** ** Raw memory: byte blocks and the loads the code performs on them *)

Definition byte_val (b : byte) : Z := Z.of_N (Byte.to_N b).

(** Least significant byte first. *)
Fixpoint le_value (bs : list byte) : Z :=
  match bs with
  | [] => 0
  | b :: rest => byte_val b + 256 * le_value rest
  end.

(** A [uint8_t *] field: either never assigned, or pointing to the start of
    a [malloc]ed block with the given contents. *)
Inductive pointer : Type :=
| Uninitialized
| Block (bytes : list byte).

(** The bytes of the block a pointer points to.  A pointer that was never
    assigned points to no block: it is given no byte here, which only
    serves to bound offsets, and nothing can be read through it (see
    [slice]); it is not a pointer to an empty block. *)
Definition block_bytes (p : pointer) : list byte :=
  match p with
  | Uninitialized => []
  | Block bytes => bytes
  end.

(** The [n] bytes at offset [off] of a block; [None] when any of them lies
    outside the block (the C program has undefined behaviour there). *)
Definition slice (p : pointer) (off : Z) (n : nat) : option (list byte) :=
  match p with
  | Uninitialized => None
  | Block bytes =>
      if (0 <=? off) && (off + Z.of_nat n <=? Z.of_nat (length bytes))
      then Some (firstn n (skipn (Z.to_nat off) bytes))
      else None
  end.

(** [*(unsigned int * )ptr] *)
Definition load_u32 (p : pointer) (off : Z) : option Z :=
  option_map le_value (slice p off 4).

(** ** Doubles *)

(** The binary64 value of a 64-bit pattern: sign bit 63, biased exponent in
    bits 62..52, fraction in bits 51..0. *)
Definition double_of_bits (bits : Z) : float :=
  let sign := Z.testbit bits 63 in
  let expo := Z.land (Z.shiftr bits 52) 2047 in
  let frac := Z.land bits (2 ^ 52 - 1) in
  SF2Prim
    (if expo =? 2047 then
       if frac =? 0 then S754_infinity sign else S754_nan
     else if expo =? 0 then
       match frac with
       | Zpos m => S754_finite sign m (-1074)
       | _ => S754_zero sign
       end
     else
       match frac + 2 ^ 52 with
       | Zpos m => S754_finite sign m (expo - 1075)
       | _ => S754_zero sign
       end).

(** [*(double * )ptr] *)
Definition load_double (p : pointer) (off : Z) : option float :=
  option_map (fun bs => double_of_bits (le_value bs)) (slice p off 8).

(** ** The data model *)

(** [typedef struct { double lng; double lat; } geo_data_coordinate;] *)
Record geo_data_coordinate : Type := {
  lng : float;
  lat : float
}.

(** [typedef struct { unsigned int num_polygons; uint8_t *polygons; } geo_data;] *)
Record geo_data : Type := {
  num_polygons : Z;
  polygons : pointer
}.

(** ** Observable steps of a run

    The hit test is instrumented with the steps the claims talk about: the
    start of the scan of a polygon (with the offset of its count field), one
    iteration of the edge loop (with the values of [i] and [j]), and one
    evaluation of the interpolation quotient (with its divisor). *)
Inductive event : Type :=
| EvPolygon (offset : Z)
| EvEdge (i j : Z)
| EvDivide (divisor : float).

(** A run: the steps taken so far, and the value computed, [None] once the
    program has read outside its buffer. *)
Definition run (A : Type) : Type := (list event * option A)%type.

Definition ret {A} (a : A) : run A := ([], Some a).

Definition emit (e : event) : run unit := ([e], Some tt).

Definition bind {A B} (m : run A) (k : A -> run B) : run B :=
  match snd m with
  | None => (fst m, None)
  | Some a => (fst m ++ fst (k a), snd (k a))
  end.

Definition lift {A} (o : option A) : run A := ([], o).

Notation "x <- m ;; k" := (bind m (fun x => k))
  (at level 61, m at next level, right associativity).
Notation "m ;;; k" := (bind m (fun _ => k))
  (at level 61, right associativity).

(** ** geo_data_hit_test *)

Section HitTest.

Variable buf : pointer.
Variables qlng qlat : float.

(** The first conjunct of the [if] in the edge loop. *)
Definition straddles (ilng jlng : float) : bool :=
  ((ilng <=? qlng)%float && (qlng <? jlng)%float)
  || ((jlng <=? qlng)%float && (qlng <? ilng)%float).

(** The right-hand side of the second conjunct. *)
Definition edge_lat (ci cj : geo_data_coordinate) : float :=
  ((lat cj - lat ci) * (qlng - lng ci) / (lng cj - lng ci) + lat ci)%float.

(** The whole condition on two vertices. *)
Definition crosses (ci cj : geo_data_coordinate) : bool :=
  straddles (lng ci) (lng cj) && (qlat <? edge_lat ci cj)%float.

(** One evaluation of the loop body for the current [i], [j] and [c];
    [coords] is the offset of [coordinates] in the buffer.  [&&] does not
    evaluate its right operand, and so reads no latitude and performs no
    division, when the left one is false. *)
Definition edge_step (coords i j : Z) (c : bool) : run bool :=
  emit (EvEdge i j) ;;;
  ilng <- lift (load_double buf (coords + 16 * i)) ;;
  jlng <- lift (load_double buf (coords + 16 * j)) ;;
  if straddles ilng jlng then
    jlat <- lift (load_double buf (coords + 16 * j + 8)) ;;
    ilat <- lift (load_double buf (coords + 16 * i + 8)) ;;
    emit (EvDivide (jlng - ilng)%float) ;;;
    let ci := {| lng := ilng; lat := ilat |} in
    let cj := {| lng := jlng; lat := jlat |} in
    ret (if (qlat <? edge_lat ci cj)%float then negb c else c)
  else ret c.

(** [while(++i < l) { ...; j = i; }], entered with [i] the value the
    pre-increment is about to produce and [count] iterations left. *)
Fixpoint edge_loop (coords : Z) (count : nat) (i j : Z) (c : bool) : run bool :=
  match count with
  | O => ret c
  | S count' =>
      c' <- edge_step coords i j c ;;
      edge_loop coords count' (i + 1) i c'
  end.

(** The body of the [for] loop up to the test of [c]: the parity of the
    polygon whose count field is at [polygon_ptr], and its vertex count. *)
Definition scan_polygon (polygon_ptr : Z) : run (bool * Z) :=
  emit (EvPolygon polygon_ptr) ;;;
  num_coordinates <- lift (load_u32 buf polygon_ptr) ;;
  let coords := polygon_ptr + 4 in
  let l := to_int num_coordinates in
  c <- edge_loop coords (Z.to_nat l) 0 (l - 1) false ;;
  ret (c, num_coordinates).

(** The [for] loop, with [count] polygons left. *)
Fixpoint scan_polygons (count : nat) (polygon_ptr : Z) : run bool :=
  match count with
  | O => ret false
  | S count' =>
      r <- scan_polygon polygon_ptr ;;
      if fst r then ret true
      else scan_polygons count' (polygon_ptr + 4 + snd r * 16)
  end.

End HitTest.

(** [int geo_data_hit_test(geo_data *data, double lng, double lat)], with
    its steps; [data] is [None] for the null pointer. *)
Definition geo_data_hit_test_run (data : option geo_data) (qlng qlat : float)
  : run bool :=
  match data with
  | None => ret false
  | Some d => scan_polygons (polygons d) qlng qlat (Z.to_nat (num_polygons d)) 0
  end.

Definition geo_data_hit_test (data : option geo_data) (qlng qlat : float)
  : option bool :=
  snd (geo_data_hit_test_run data qlng qlat).

(** ** geo_data_destroy *)

(** What a call hands back to the allocator. *)
Inductive release : Type :=
| FreeBlock (p : pointer)
| FreeStruct.

(** [void geo_data_destroy(geo_data *data)]: the calls to [free] it makes,
    in order. *)
Definition geo_data_destroy (data : option geo_data) : list release :=
  match data with
  | Some d => [FreeBlock (polygons d); FreeStruct]
  | None => []
  end.

(** ** geo_data_create *)

(** The world the loader runs in: which paths can be opened and what the
    files hold, and whether the two seeks and the allocation of the payload
    buffer fail.  [ftell] is taken to return the length of the file, and
    the allocation of the [geo_data] structure itself, which the code does
    not test, to succeed. *)
Record system : Type := {
  fopen : string -> option (list byte);
  fseek_end_fails : bool;
  fseek_set_fails : bool;
  malloc_fails : bool;
  strerror_errno : string
}.

(** The places where [geo_data_create] gives up. *)
Inductive load_failure : Type :=
| OpenFailed
| SeekEndFailed
| SeekSetFailed
| FileTooShort
| HeaderReadFailed
| HeaderMismatch
| CountReadFailed
| AllocFailed
| PayloadReadFailed
| CountOutsidePayload
| VerticesOutsidePayload.

(** The value stored in [*status] at each of them. *)
Definition status_of (f : load_failure) : Z :=
  match f with
  | OpenFailed => -1000
  | SeekEndFailed => -1001
  | SeekSetFailed => -1002
  | FileTooShort => -1003
  | HeaderReadFailed => -1004
  | HeaderMismatch => -1005
  | CountReadFailed => -1006
  | AllocFailed => -1007
  | PayloadReadFailed => -1008
  | CountOutsidePayload => -1009
  | VerticesOutsidePayload => -1010
  end.

(** The outcome of the verification loop. *)
Inductive verdict : Type :=
| Accepted
| Rejected (f : load_failure)
| ReadOutside.

(** The outcome of [geo_data_create]: the structure returned with [*status]
    left alone, or [NULL] with [*status] set, or a read outside the buffer. *)
Inductive create_result : Type :=
| Created (data : geo_data)
| Failed (f : load_failure)
| Undefined.

(** [fread(dst, 1, n, handle)] with the handle at [pos]: the bytes that
    arrive; the count returned is their number. *)
Definition fread (contents : list byte) (pos n : Z) : list byte :=
  firstn (Z.to_nat n) (skipn (Z.to_nat pos) contents).

(** [header[0] != 'G' || header[1] != 'E' || header[2] != 'O' || header[3] != '!'] *)
Definition header_differs (header : list byte) : bool :=
  match header with
  | [h0; h1; h2; h3] =>
      negb (Byte.eqb h0 "G") || negb (Byte.eqb h1 "E")
      || negb (Byte.eqb h2 "O") || negb (Byte.eqb h3 "!")
  | _ => true
  end.

(** The [// verify data] loop with [count] polygons left.  [offset] is the
    [unsigned int] counter, [polygon_ptr] the position of the pointer in the
    buffer; both advance by [polygon_len], the counter modulo 2^32. *)
Fixpoint verify (buf : pointer) (buffer_len : Z) (count : nat)
    (offset polygon_ptr : Z) : verdict :=
  match count with
  | O => Accepted
  | S count' =>
      let polygon_len := 4 in
      if u32 (offset + polygon_len) >? buffer_len then Rejected CountOutsidePayload
      else
        match load_u32 buf polygon_ptr with
        | None => ReadOutside
        | Some num_coordinates =>
            let polygon_len :=
              u32 (usize (polygon_len + usize (usize (num_coordinates * 8) * 2))) in
            if u32 (offset + polygon_len) >? buffer_len
            then Rejected VerticesOutsidePayload
            else verify buf buffer_len count'
                   (u32 (offset + polygon_len)) (polygon_ptr + polygon_len)
        end
  end.

(** [geo_data* geo_data_create(const char *filepath, int *status)] *)
Definition geo_data_create (sys : system) (filepath : string) : create_result :=
  match fopen sys filepath with
  | None => Failed OpenFailed
  | Some contents =>
      if fseek_end_fails sys then Failed SeekEndFailed
      else
        let len := u32 (Z.of_nat (length contents)) in
        if fseek_set_fails sys then Failed SeekSetFailed
        else if len <? 4 + 4 then Failed FileTooShort
        else
          let header := fread contents 0 4 in
          if (length header =? 0)%nat then Failed HeaderReadFailed
          else if header_differs header then Failed HeaderMismatch
          else
            let count_bytes := fread contents 4 4 in
            if (length count_bytes =? 0)%nat then Failed CountReadFailed
            else
              let n := le_value count_bytes in
              if n =? 0 then
                Created {| num_polygons := n; polygons := Uninitialized |}
              else
                let buffer_len := u32 (len - (4 + 4)) in
                if malloc_fails sys then Failed AllocFailed
                else
                  let buffer := fread contents 8 buffer_len in
                  if (length buffer =? 0)%nat then Failed PayloadReadFailed
                  else
                    match verify (Block buffer) buffer_len (Z.to_nat n) 0 0 with
                    | Accepted =>
                        Created {| num_polygons := n; polygons := Block buffer |}
                    | Rejected f => Failed f
                    | ReadOutside => Undefined
                    end
  end.

(** ** The binding: GeoData *)

(** [class GeoData]: the wrapped pointer, [None] for [NULL]. *)
Record GeoData : Type := {
  geo_data_ : option geo_data
}.

(** The [switch] of the constructor. *)
Definition status_message (sys : system) (status : Z) : string :=
  if status =? -1000 then strerror_errno sys
  else if status =? -1001 then "-1001"
  else if status =? -1002 then "-1002"
  else if status =? -1003 then "-1003"
  else if status =? -1004 then "-1004"
  else if status =? -1005 then "-1005"
  else if status =? -1006 then "-1006"
  else if status =? -1007 then "-1007"
  else if status =? -1008 then "-1008"
  else if status =? -1009 then "-1009"
  else if status =? -1010 then "-1010"
  else "Unknown".

(** [GeoData::GeoData(const char *filepath)]: the object built and the
    message of the exception thrown, if any; [None] when the loader read
    outside its buffer.  [status] starts at 0 and is tested with [<=]. *)
Definition GeoData_new (sys : system) (filepath : option string)
  : option (GeoData * option string) :=
  match filepath with
  | Some path =>
      match geo_data_create sys path with
      | Created d =>
          let status := 0 in
          Some ({| geo_data_ := Some d |},
                if status <=? 0 then Some (status_message sys status) else None)
      | Failed f =>
          let status := status_of f in
          Some ({| geo_data_ := None |},
                if status <=? 0 then Some (status_message sys status) else None)
      | Undefined => None
      end
  | None => Some ({| geo_data_ := None |}, None)
  end.

(** [GeoData::~GeoData()] *)
Definition GeoData_delete (obj : GeoData) : list release :=
  match geo_data_ obj with
  | Some d => geo_data_destroy (Some d)
  | None => []
  end.

(** [GeoData::Contains(const Arguments& args)]; an argument is [None] when
    it is [undefined], and the number it converts to otherwise. *)
Definition Contains_run (obj : GeoData) (arg0 arg1 : option float) : run bool :=
  let qlng := match arg0 with None => (-320)%float | Some v => v end in
  let qlat := match arg1 with None => (-320)%float | Some v => v end in
  if (qlng <? -180)%float || (180 <? qlng)%float
     || (qlat <? -180)%float || (180 <? qlat)%float
  then ret false
  else
    hit <- geo_data_hit_test_run (geo_data_ obj) qlng qlat ;;
    if hit then ret true else ret false.

Definition Contains (obj : GeoData) (arg0 arg1 : option float) : option bool :=
  snd (Contains_run obj arg0 arg1).

(** ** The file layout and the even-odd rule, as the specification words them

    These definitions follow the text of the specification (sections 3, 4
    and 6) in exact integer arithmetic; the theorems below compare the code
    with them. *)

(** The bytes 'G','E','O','!'. *)
Definition magic : list byte := ["G"; "E"; "O"; "!"]%byte.

(** [count] coordinate records, back to back, from offset [off]. *)
Fixpoint decode_coordinates (buf : pointer) (off : Z) (count : nat)
  : option (list geo_data_coordinate) :=
  match count with
  | O => Some []
  | S count' =>
      match load_double buf off, load_double buf (off + 8) with
      | Some x, Some y =>
          option_map (cons {| lng := x; lat := y |})
                     (decode_coordinates buf (off + 16) count')
      | _, _ => None
      end
  end.

(** A polygon record at offset [off]: its vertex count, then its vertices,
    all inside the buffer. *)
Definition decode_polygon (buf : pointer) (off : Z)
  : option (list geo_data_coordinate) :=
  match load_u32 buf off with
  | None => None
  | Some v =>
      if off + 4 + 16 * v <=? Z.of_nat (length (block_bytes buf))
      then decode_coordinates buf (off + 4) (Z.to_nat v)
      else None
  end.

(** [count] polygon records, back to back, from offset [off]; each is
    returned with the offset it is stored at. *)
Fixpoint decode_polygons (buf : pointer) (count : nat) (off : Z)
  : option (list (Z * list geo_data_coordinate)) :=
  match count with
  | O => Some []
  | S count' =>
      match decode_polygon buf off with
      | None => None
      | Some vs =>
          option_map (cons (off, vs))
            (decode_polygons buf count' (off + 4 + 16 * Z.of_nat (length vs)))
      end
  end.

(** A Polygon Set is validly structured when its buffer decodes. *)
Definition decode_set (d : geo_data)
  : option (list (Z * list geo_data_coordinate)) :=
  decode_polygons (polygons d) (Z.to_nat (num_polygons d)) 0.

(** Vertex [i] of a polygon. *)
Definition vertex (vs : list geo_data_coordinate) (i : nat) : geo_data_coordinate :=
  nth i vs {| lng := 0; lat := 0 |}.

(** The vertex paired with vertex [i]: vertex [i-1], and the last vertex
    for vertex 0. *)
Definition previous (vs : list geo_data_coordinate) (i : nat) : nat :=
  match i with
  | O => length vs - 1
  | S i' => i'
  end.

(** The edge list of a polygon. *)
Definition edges (vs : list geo_data_coordinate)
  : list (geo_data_coordinate * geo_data_coordinate) :=
  map (fun i => (vertex vs i, vertex vs (previous vs i))) (seq 0 (length vs)).

(** The number of edges the code counts as crossed. *)
Definition crossings (qlng qlat : float)
    (es : list (geo_data_coordinate * geo_data_coordinate)) : nat :=
  length (filter (fun e => crosses qlng qlat (fst e) (snd e)) es).

(** Even-odd rule: inside when the number of crossed edges is odd. *)
Definition inside (qlng qlat : float) (vs : list geo_data_coordinate) : bool :=
  Nat.odd (crossings qlng qlat (edges vs)).

(** The offsets of the polygons a scan in storage order visits when it
    stops at the first polygon that contains the point. *)
Fixpoint scanned (qlng qlat : float) (polys : list (Z * list geo_data_coordinate))
  : list Z :=
  match polys with
  | [] => []
  | (off, vs) :: rest =>
      off :: (if inside qlng qlat vs then [] else scanned qlng qlat rest)
  end.

(** The polygons a run has started to scan. *)
Definition polygon_offsets (tr : list event) : list Z :=
  flat_map (fun e => match e with EvPolygon off => [off] | _ => [] end) tr.

(** The step does not start the scan of a polygon. *)
Definition not_polygon (e : event) : Prop :=
  match e with
  | EvPolygon _ => False
  | _ => True
  end.

(** The number of edge-loop iterations in a run. *)
Definition edge_iterations (tr : list event) : nat :=
  length (filter (fun e => match e with EvEdge _ _ => true | _ => false end) tr).

(** The step divides by zero. *)
Definition divides_by_zero (e : event) : bool :=
  match e with
  | EvDivide d => (d =? 0)%float
  | _ => false
  end.

(** A division whose divisor is the difference of the longitudes of two
    vertices that straddle the query longitude. *)
Definition guarded_division (qlng : float) (e : event) : Prop :=
  match e with
  | EvDivide d =>
      exists ilng jlng,
        straddles qlng ilng jlng = true /\ d = (jlng - ilng)%float
  | _ => True
  end.

(** A step that is no division, or a guarded division by a nonzero. *)
Definition safe_step (qlng : float) (e : event) : Prop :=
  guarded_division qlng e /\ divides_by_zero e = false.

(** The crossing condition as the specification words it: one endpoint's
    longitude is >= the query longitude while the other's is <, and the
    interpolated latitude exceeds the query latitude. *)
Definition crossed_as_specified (qlng qlat : float) (ci cj : geo_data_coordinate)
  : Prop :=
  (((qlng <=? lng ci)%float = true /\ (lng cj <? qlng)%float = true)
   \/ ((qlng <=? lng cj)%float = true /\ (lng ci <? qlng)%float = true))
  /\ (qlat <? edge_lat qlng ci cj)%float = true.

(** The crossing condition with the half-open comparisons the other way
    round: one endpoint's longitude is <= the query longitude while the
    other's is >. *)
Definition crossed_half_open (qlng qlat : float) (ci cj : geo_data_coordinate)
  : Prop :=
  (((lng ci <=? qlng)%float = true /\ (qlng <? lng cj)%float = true)
   \/ ((lng cj <=? qlng)%float = true /\ (qlng <? lng ci)%float = true))
  /\ (qlat <? edge_lat qlng ci cj)%float = true.

(** The byte extents (4 + 16 * V) of [count] polygon records read back to
    back from offset [off], in exact arithmetic; [None] when a count field
    does not lie inside the buffer. *)
Fixpoint declared_extents (buf : pointer) (count : nat) (off : Z)
  : option (list Z) :=
  match count with
  | O => Some []
  | S count' =>
      match load_u32 buf off with
      | None => None
      | Some v =>
          option_map (cons (4 + 16 * v))
                     (declared_extents buf count' (off + 4 + 16 * v))
      end
  end.

Definition total (extents : list Z) : Z := fold_right Z.add 0 extents.

(** None of the sums [offset + 4] and [offset + 4 + V*16] met while walking
    [count] records from [off] reaches 2^32. *)
Fixpoint no_overflow (buf : pointer) (count : nat) (off : Z) : bool :=
  match count with
  | O => true
  | S count' =>
      (off + 4 <? 2 ^ 32)
      && match load_u32 buf off with
         | None => true
         | Some v =>
             (off + 4 + 16 * v <? 2 ^ 32)
             && ((Z.of_nat (length (block_bytes buf)) <? off + 4 + 16 * v)
                 || no_overflow buf count' (off + 4 + 16 * v))
         end
  end.

(** The length the loader computes for a file, its declared polygon count
    and the payload it reads. *)
Definition file_len (contents : list byte) : Z := u32 (Z.of_nat (length contents)).

Definition declared_count (contents : list byte) : Z := le_value (fread contents 4 4).

Definition payload (contents : list byte) : list byte :=
  fread contents 8 (u32 (file_len contents - 8)).

(** The error kinds of the specification (section 7). *)
Inductive error_kind : Type :=
| IOError
| TruncatedHeader
| BadMagic
| TruncatedPolygonHeader
| TruncatedPolygonBody.

(** The kind each failure of the loader falls under: the length test is
    step 2, the header comparison step 3, the two tests of the verification
    loop steps 7(a) and 7(c); opening, seeking, reading and allocating are
    the I/O failures of steps 1 and 6. *)
Definition kind_of (f : load_failure) : error_kind :=
  match f with
  | FileTooShort => TruncatedHeader
  | HeaderMismatch => BadMagic
  | CountOutsidePayload => TruncatedPolygonHeader
  | VerticesOutsidePayload => TruncatedPolygonBody
  | OpenFailed | SeekEndFailed | SeekSetFailed | HeaderReadFailed
  | CountReadFailed | AllocFailed | PayloadReadFailed => IOError
  end.

(** ** Sample worlds and files *)

(** Every path opens on [contents]; no call fails. *)
Definition plain_system (contents : list byte) : system :=
  {| fopen := fun _ => Some contents;
     fseek_end_fails := false;
     fseek_set_fails := false;
     malloc_fails := false;
     strerror_errno := "No such file or directory" |}.

Definition uint32_1 : list byte := [x01; x00; x00; x00].
Definition uint32_0 : list byte := [x00; x00; x00; x00].
Definition double_0 : list byte := [x00; x00; x00; x00; x00; x00; x00; x00].
Definition double_1 : list byte := [x00; x00; x00; x00; x00; x00; xf0; x3f].
Definition double_10 : list byte := [x00; x00; x00; x00; x00; x00; x24; x40].

(** Magic, N = 0. *)
Definition empty_set_file : list byte := magic ++ uint32_0.

(** Magic, N = 1, nothing else. *)
Definition bare_header_file : list byte := magic ++ uint32_1.

(** Magic, N = 1, one polygon with no vertex. *)
Definition zero_vertex_file : list byte := magic ++ uint32_1 ++ uint32_0.

(** Magic, N = 1, one polygon with no vertex, one more byte. *)
Definition trailing_byte_file : list byte := magic ++ uint32_1 ++ uint32_0 ++ [xff].

(** Magic, N = 1, a vertex count of 2^28 and no vertex. *)
Definition huge_count_file : list byte := magic ++ uint32_1 ++ [x00; x00; x00; x10].

(** Five bytes: the magic and one more. *)
Definition short_file : list byte := magic ++ [x00].

(** Eight bytes that do not start with the magic. *)
Definition bad_magic_file : list byte := ["G"; "E"; "O"; "?"]%byte ++ uint32_0.

(** Magic, N = 2, one polygon with no vertex, then two bytes. *)
Definition cut_count_file : list byte :=
  magic ++ [x02; x00; x00; x00] ++ uint32_0 ++ [x00; x00].

(** One polygon with the two vertices (0,0) and (1,10). *)
Definition segment_polygon : list byte :=
  [x02; x00; x00; x00] ++ double_0 ++ double_0 ++ double_1 ++ double_10.

(** The unit square (0,0), (0,1), (1,1), (1,0). *)
Definition unit_square : list byte :=
  [x04; x00; x00; x00] ++ double_0 ++ double_0 ++ double_0 ++ double_1
  ++ double_1 ++ double_1 ++ double_1 ++ double_0.

Definition segment_vertices : list geo_data_coordinate :=
  [ {| lng := 0; lat := 0 |}; {| lng := 1; lat := 10 |} ].

Definition unit_square_vertices : list geo_data_coordinate :=
  [ {| lng := 0; lat := 0 |}; {| lng := 0; lat := 1 |};
    {| lng := 1; lat := 1 |}; {| lng := 1; lat := 0 |} ].

Definition unit_square_set : geo_data :=
  {| num_polygons := 1; polygons := Block unit_square |}.

(** Magic, N = 1, the unit square. *)
Definition unit_square_file : list byte := magic ++ uint32_1 ++ unit_square.

(** ** The loader with its resources

    [geo_data_create] once more, now with the calls it makes on the file
    handle and on the allocator, in order. *)

Inductive effect : Type :=
| Fopen
| Fclose
| MallocStruct
| MallocBuffer (len : Z)
| Free (r : release)
| Throw (message : string).

Definition geo_data_create_run (sys : system) (filepath : string)
  : list effect * create_result :=
  match fopen sys filepath with
  | None => ([Throw filepath], Failed OpenFailed)
  | Some contents =>
      if fseek_end_fails sys then ([Fopen; Fclose], Failed SeekEndFailed)
      else
        let len := u32 (Z.of_nat (length contents)) in
        if fseek_set_fails sys then ([Fopen; Fclose], Failed SeekSetFailed)
        else if len <? 4 + 4 then ([Fopen; Fclose], Failed FileTooShort)
        else
          let header := fread contents 0 4 in
          if (length header =? 0)%nat
          then ([Fopen; Fclose], Failed HeaderReadFailed)
          else if header_differs header
          then ([Fopen; Fclose], Failed HeaderMismatch)
          else
            let count_bytes := fread contents 4 4 in
            if (length count_bytes =? 0)%nat
            then ([Fopen; Fclose], Failed CountReadFailed)
            else
              let n := le_value count_bytes in
              if n =? 0 then
                ([Fopen; MallocStruct; Fclose],
                 Created {| num_polygons := n; polygons := Uninitialized |})
              else
                let buffer_len := u32 (len - (4 + 4)) in
                if malloc_fails sys
                then ([Fopen; MallocStruct; Fclose], Failed AllocFailed)
                else
                  let buffer := fread contents 8 buffer_len in
                  let data := {| num_polygons := n; polygons := Block buffer |} in
                  if (length buffer =? 0)%nat then
                    ([Fopen; MallocStruct; MallocBuffer buffer_len]
                       ++ map Free (geo_data_destroy (Some data)) ++ [Fclose],
                     Failed PayloadReadFailed)
                  else
                    match verify (Block buffer) buffer_len (Z.to_nat n) 0 0 with
                    | Accepted =>
                        ([Fopen; MallocStruct; MallocBuffer buffer_len],
                         Created data)
                    | Rejected f =>
                        ([Fopen; MallocStruct; MallocBuffer buffer_len]
                           ++ map Free (geo_data_destroy (Some data)),
                         Failed f)
                    | ReadOutside =>
                        ([Fopen; MallocStruct; MallocBuffer buffer_len],
                         Undefined)
                    end
  end.

Definition count_effects (p : effect -> bool) (tr : list effect) : Z :=
  Z.of_nat (length (filter p tr)).

(** File handles opened and not closed. *)
Definition open_handles (tr : list effect) : Z :=
  count_effects (fun e => match e with Fopen => true | _ => false end) tr
  - count_effects (fun e => match e with Fclose => true | _ => false end) tr.

(** [geo_data] structures allocated and not freed. *)
Definition live_structs (tr : list effect) : Z :=
  count_effects (fun e => match e with MallocStruct => true | _ => false end) tr
  - count_effects
      (fun e => match e with Free FreeStruct => true | _ => false end) tr.

(** Payload buffers allocated and not freed. *)
Definition live_buffers (tr : list effect) : Z :=
  count_effects (fun e => match e with MallocBuffer _ => true | _ => false end) tr
  - count_effects
      (fun e => match e with Free (FreeBlock (Block _)) => true | _ => false end)
      tr.

(** The call got as far as the verification loop. *)
Definition reached_verification (r : create_result) : bool :=
  match r with
  | Created d => negb (num_polygons d =? 0)
  | Failed CountOutsidePayload | Failed VerticesOutsidePayload => true
  | Failed _ => false
  | Undefined => true
  end.

(** * Properties *)

(** ** Bytes and loads *)

Lemma some_eq {A} (a b : A) : Some a = Some b -> a = b.
Proof. congruence. Qed.

Lemma byte_val_range (b : byte) : 0 <= byte_val b < 256.
Proof.
  unfold byte_val. pose proof (Byte.to_N_bounded b). lia.
Qed.

Lemma le_value_range (bs : list byte) :
  0 <= le_value bs < 256 ^ Z.of_nat (length bs).
Proof.
  induction bs as [|b bs IH].
  - simpl. lia.
  - cbn [le_value length]. rewrite Nat2Z.inj_succ, Z.pow_succ_r by lia.
    pose proof (byte_val_range b). lia.
Qed.

Lemma slice_inside (buf : pointer) (off : Z) (n : nat) (bs : list byte) :
  slice buf off n = Some bs ->
  0 <= off /\ off + Z.of_nat n <= Z.of_nat (length (block_bytes buf))
  /\ length bs = n.
Proof.
  destruct buf as [|bytes]; simpl; [discriminate|].
  destruct (0 <=? off) eqn:H0; simpl; [|discriminate].
  destruct (off + Z.of_nat n <=? Z.of_nat (length bytes)) eqn:H1; [|discriminate].
  intros H. injection H as <-.
  apply Z.leb_le in H0, H1.
  repeat split; try assumption.
  rewrite length_firstn, length_skipn. lia.
Qed.

Lemma slice_some (bytes : list byte) (off : Z) (n : nat) :
  0 <= off -> off + Z.of_nat n <= Z.of_nat (length bytes) ->
  exists bs, slice (Block bytes) off n = Some bs.
Proof.
  intros H0 H1. unfold slice.
  apply Z.leb_le in H0, H1. rewrite H0, H1. simpl. eauto.
Qed.

Lemma load_u32_inside (buf : pointer) (off v : Z) :
  load_u32 buf off = Some v ->
  0 <= v < 2 ^ 32 /\ 0 <= off
  /\ off + 4 <= Z.of_nat (length (block_bytes buf)).
Proof.
  unfold load_u32. destruct (slice buf off 4) as [bs|] eqn:Hs; [|discriminate].
  simpl. intros H. injection H as <-.
  apply slice_inside in Hs. destruct Hs as (H0 & H1 & Hl).
  pose proof (le_value_range bs) as Hr. rewrite Hl in Hr.
  change (256 ^ Z.of_nat 4) with (2 ^ 32) in Hr. lia.
Qed.

Lemma load_u32_some (bytes : list byte) (off : Z) :
  0 <= off -> off + 4 <= Z.of_nat (length bytes) ->
  exists v, load_u32 (Block bytes) off = Some v.
Proof.
  intros H0 H1. destruct (slice_some bytes off 4 H0) as [bs Hs]; [lia|].
  unfold load_u32. rewrite Hs. simpl. eauto.
Qed.

Lemma u32_small (z : Z) : 0 <= z < 2 ^ 32 -> u32 z = z.
Proof. intros H. unfold u32. apply Z.mod_small. exact H. Qed.

Lemma usize_small (z : Z) : 0 <= z < 2 ^ 64 -> usize z = z.
Proof. intros H. unfold usize. apply Z.mod_small. exact H. Qed.

(** The [unsigned int] kept in [polygon_len] is 4 + 16 * V reduced modulo
    2^32, whatever the width of the intermediate [size_t] products. *)
Lemma polygon_len_wraps (v : Z) :
  0 <= v < 2 ^ 32 ->
  u32 (usize (4 + usize (usize (v * 8) * 2))) = u32 (4 + 16 * v).
Proof.
  intros Hv.
  assert (H1 : usize (v * 8) = v * 8) by (apply usize_small; lia).
  rewrite H1.
  assert (H2 : usize (v * 8 * 2) = v * 8 * 2) by (apply usize_small; lia).
  rewrite H2.
  assert (H3 : usize (4 + v * 8 * 2) = 4 + v * 8 * 2) by (apply usize_small; lia).
  rewrite H3. f_equal. lia.
Qed.

Lemma to_int_small (v : Z) : 0 <= v < 2 ^ 31 -> to_int v = v.
Proof.
  intros H. unfold to_int. destruct (v <? 2 ^ 31) eqn:E; [reflexivity|].
  apply Z.ltb_ge in E. lia.
Qed.

(** ** Runs *)

Lemma bind_steps {A B} (m : run A) (k : A -> run B) (P : event -> Prop) :
  Forall P (fst m) ->
  (forall a, snd m = Some a -> Forall P (fst (k a))) ->
  Forall P (fst (bind m k)).
Proof.
  intros Hm Hk. unfold bind. destruct (snd m) as [a|] eqn:E; simpl.
  - apply Forall_app. split; [exact Hm | apply Hk; reflexivity].
  - exact Hm.
Qed.

Lemma bind_some {A B} (m : run A) (k : A -> run B) (a : A) :
  snd m = Some a ->
  bind m k = (fst m ++ fst (k a), snd (k a)).
Proof. intros E. unfold bind. rewrite E. reflexivity. Qed.

Lemma bind_none {A B} (m : run A) (k : A -> run B) :
  snd m = None -> bind m k = (fst m, None).
Proof. intros E. unfold bind. rewrite E. reflexivity. Qed.

Lemma polygon_offsets_app (t1 t2 : list event) :
  polygon_offsets (t1 ++ t2) = polygon_offsets t1 ++ polygon_offsets t2.
Proof. unfold polygon_offsets. apply flat_map_app. Qed.

Lemma polygon_offsets_none (tr : list event) :
  Forall not_polygon tr -> polygon_offsets tr = [].
Proof.
  induction 1 as [|e tr He _ IH]; [reflexivity|].
  unfold polygon_offsets in *. simpl. rewrite IH.
  destruct e; simpl in *; [contradiction|reflexivity|reflexivity].
Qed.

(** ** The edge loop on a decoded polygon *)

Lemma decode_coordinates_at (buf : pointer) :
  forall count off vs,
    decode_coordinates buf off count = Some vs ->
    length vs = count
    /\ forall k, (k < count)%nat ->
         load_double buf (off + 16 * Z.of_nat k) = Some (lng (vertex vs k))
         /\ load_double buf (off + 16 * Z.of_nat k + 8) = Some (lat (vertex vs k)).
Proof.
  induction count as [|count IH]; intros off vs H; simpl in H.
  - injection H as <-. split; [reflexivity|]. intros k Hk. lia.
  - destruct (load_double buf off) as [x|] eqn:Hx; [|discriminate].
    destruct (load_double buf (off + 8)) as [y|] eqn:Hy; [|discriminate].
    destruct (decode_coordinates buf (off + 16) count) as [rest|] eqn:Hr;
      [|discriminate].
    simpl in H. injection H as <-.
    destruct (IH _ _ Hr) as [Hlen Hat].
    split; [simpl; congruence|].
    intros [|k] Hk.
    + simpl. rewrite Z.add_0_r. auto.
    + specialize (Hat k ltac:(lia)).
      replace (off + 16 * Z.of_nat (S k)) with (off + 16 + 16 * Z.of_nat k) by lia.
      exact Hat.
Qed.

Lemma decode_polygon_at (buf : pointer) (off : Z) (vs : list geo_data_coordinate) :
  decode_polygon buf off = Some vs ->
  load_u32 buf off = Some (Z.of_nat (length vs))
  /\ off + 4 + 16 * Z.of_nat (length vs) <= Z.of_nat (length (block_bytes buf))
  /\ forall k, (k < length vs)%nat ->
       load_double buf (off + 4 + 16 * Z.of_nat k) = Some (lng (vertex vs k))
       /\ load_double buf (off + 4 + 16 * Z.of_nat k + 8) = Some (lat (vertex vs k)).
Proof.
  unfold decode_polygon. intros H.
  destruct (load_u32 buf off) as [v|] eqn:Hv; [|discriminate].
  destruct (off + 4 + 16 * v <=? Z.of_nat (length (block_bytes buf))) eqn:Hfit;
    [|discriminate].
  apply Z.leb_le in Hfit.
  destruct (load_u32_inside _ _ _ Hv) as (Hrange & _ & _).
  destruct (decode_coordinates_at _ _ _ _ H) as [Hlen Hat].
  assert (Hv' : Z.of_nat (length vs) = v) by (rewrite Hlen; lia).
  rewrite Hv'. split; [reflexivity|]. split; [exact Hfit|].
  intros k Hk. apply Hat. lia.
Qed.

Lemma edge_step_loaded (buf : pointer) (qlng qlat : float) (coords i j : Z)
    (c : bool) (ci cj : geo_data_coordinate) :
  load_double buf (coords + 16 * i) = Some (lng ci) ->
  load_double buf (coords + 16 * i + 8) = Some (lat ci) ->
  load_double buf (coords + 16 * j) = Some (lng cj) ->
  load_double buf (coords + 16 * j + 8) = Some (lat cj) ->
  snd (edge_step buf qlng qlat coords i j c)
  = Some (xorb c (crosses qlng qlat ci cj)).
Proof.
  destruct ci as [ilng ilat], cj as [jlng jlat]. simpl.
  intros Hi Hi' Hj Hj'.
  unfold edge_step, crosses, bind, lift, emit, ret. simpl.
  rewrite Hi. simpl. rewrite Hj. simpl.
  destruct (straddles qlng ilng jlng); simpl.
  - rewrite Hj'. simpl. rewrite Hi'. simpl.
    destruct (qlat <? _)%float; destruct c; reflexivity.
  - destruct c; reflexivity.
Qed.

Lemma crossings_app (qlng qlat : float)
    (es1 es2 : list (geo_data_coordinate * geo_data_coordinate)) :
  crossings qlng qlat (es1 ++ es2)
  = (crossings qlng qlat es1 + crossings qlng qlat es2)%nat.
Proof. unfold crossings. rewrite filter_app, length_app. reflexivity. Qed.

Lemma odd_crossings_cons (qlng qlat : float) (ci cj : geo_data_coordinate)
    (es : list (geo_data_coordinate * geo_data_coordinate)) :
  Nat.odd (crossings qlng qlat ((ci, cj) :: es))
  = xorb (crosses qlng qlat ci cj) (Nat.odd (crossings qlng qlat es)).
Proof.
  unfold crossings. simpl. destruct (crosses qlng qlat ci cj); simpl.
  - rewrite Nat.odd_succ, <- Nat.negb_odd. reflexivity.
  - reflexivity.
Qed.

(** The edges the loop visits in [count] iterations starting at vertex [i]. *)
Lemma edge_loop_parity (buf : pointer) (qlng qlat : float) (coords : Z)
    (vs : list geo_data_coordinate) :
  (forall k, (k < length vs)%nat ->
     load_double buf (coords + 16 * Z.of_nat k) = Some (lng (vertex vs k))
     /\ load_double buf (coords + 16 * Z.of_nat k + 8) = Some (lat (vertex vs k))) ->
  forall count i j c,
    (i + count <= length vs)%nat ->
    (count <> 0%nat -> j = Z.of_nat (previous vs i)) ->
    snd (edge_loop buf qlng qlat coords count (Z.of_nat i) j c)
    = Some (xorb c (Nat.odd (crossings qlng qlat
         (map (fun k => (vertex vs k, vertex vs (previous vs k))) (seq i count))))).
Proof.
  intros Hat. induction count as [|count IH]; intros i j c Hle Hj.
  - simpl. destruct c; reflexivity.
  - specialize (Hj ltac:(discriminate)). subst j.
    assert (Hp : (previous vs i < length vs)%nat)
      by (destruct i; simpl; lia).
    destruct (Hat i ltac:(lia)) as [Hi Hi'].
    destruct (Hat _ Hp) as [Hj Hj'].
    pose proof (edge_step_loaded buf qlng qlat coords _ _ c _ _ Hi Hi' Hj Hj')
      as Hstep.
    cbn [edge_loop]. rewrite (bind_some _ _ _ Hstep). cbn [snd].
    replace (Z.of_nat i + 1) with (Z.of_nat (S i)) by lia.
    rewrite IH; [|lia|reflexivity].
    cbn [seq map]. rewrite odd_crossings_cons.
    f_equal. rewrite xorb_assoc. reflexivity.
Qed.

Lemma edge_step_no_polygon (buf : pointer) (qlng qlat : float) (coords i j : Z)
    (c : bool) :
  Forall not_polygon (fst (edge_step buf qlng qlat coords i j c)).
Proof.
  unfold edge_step.
  repeat (first
    [ apply bind_steps; [|intros ? _]
    | match goal with |- context [if ?b then _ else _] => destruct b end
    | apply Forall_nil
    | (apply Forall_cons; [exact I|apply Forall_nil]) ]).
Qed.

Lemma edge_loop_no_polygon (buf : pointer) (qlng qlat : float) (coords : Z) :
  forall count i j c,
    Forall not_polygon (fst (edge_loop buf qlng qlat coords count i j c)).
Proof.
  induction count as [|count IH]; intros i j c; simpl.
  - apply Forall_nil.
  - apply bind_steps; [apply edge_step_no_polygon|]. intros c' _. apply IH.
Qed.

(** ** The scan of a decoded Polygon Set *)

Lemma scan_polygon_steps (buf : pointer) (qlng qlat : float) (off : Z) :
  exists tr,
    fst (scan_polygon buf qlng qlat off) = EvPolygon off :: tr
    /\ Forall not_polygon tr.
Proof.
  unfold scan_polygon.
  rewrite (bind_some (emit (EvPolygon off)) _ tt) by reflexivity.
  cbn [fst emit app]. eexists. split; [reflexivity|].
  apply bind_steps; [apply Forall_nil|]. intros v _.
  apply bind_steps; [apply edge_loop_no_polygon|]. intros c _. apply Forall_nil.
Qed.

Lemma scan_polygon_decoded (buf : pointer) (qlng qlat : float) (off : Z)
    (vs : list geo_data_coordinate) :
  Z.of_nat (length (block_bytes buf)) < 2 ^ 32 ->
  decode_polygon buf off = Some vs ->
  snd (scan_polygon buf qlng qlat off)
  = Some (inside qlng qlat vs, Z.of_nat (length vs)).
Proof.
  intros Hlen Hdec.
  destruct (decode_polygon_at _ _ _ Hdec) as (Hv & Hfit & Hat).
  destruct (load_u32_inside _ _ _ Hv) as (_ & Hoff & _).
  unfold scan_polygon.
  rewrite (bind_some (emit (EvPolygon off)) _ tt) by reflexivity. cbn [snd].
  rewrite (bind_some (lift (load_u32 buf off)) _ _ Hv). cbn [snd].
  rewrite to_int_small by lia. rewrite Nat2Z.id.
  assert (Hloop := edge_loop_parity buf qlng qlat (off + 4) vs Hat
                     (length vs) 0%nat (Z.of_nat (length vs) - 1) false).
  cbn [Z.of_nat] in Hloop.
  rewrite (bind_some _ _ _ (Hloop ltac:(lia) ltac:(simpl; lia))).
  reflexivity.
Qed.

Lemma scan_polygons_decoded (buf : pointer) (qlng qlat : float) :
  Z.of_nat (length (block_bytes buf)) < 2 ^ 32 ->
  forall count off polys,
    decode_polygons buf count off = Some polys ->
    snd (scan_polygons buf qlng qlat count off)
    = Some (existsb (fun p => inside qlng qlat (snd p)) polys)
    /\ polygon_offsets (fst (scan_polygons buf qlng qlat count off))
       = scanned qlng qlat polys.
Proof.
  intros Hlen. induction count as [|count IH]; intros off polys Hdec;
    cbn [decode_polygons] in Hdec.
  - injection Hdec as <-. split; reflexivity.
  - destruct (decode_polygon buf off) as [vs|] eqn:Hvs; [|discriminate].
    destruct (decode_polygons buf count (off + 4 + 16 * Z.of_nat (length vs)))
      as [rest|] eqn:Hrest; [|discriminate].
    simpl in Hdec. injection Hdec as <-.
    pose proof (scan_polygon_decoded buf qlng qlat off vs Hlen Hvs) as Hscan.
    destruct (scan_polygon_steps buf qlng qlat off) as (tr & Htr & Hnp).
    destruct (IH _ _ Hrest) as [IHv IHt].
    cbn [scan_polygons]. rewrite (bind_some _ _ _ Hscan). cbn [fst snd].
    rewrite Htr. cbn [existsb scanned snd].
    replace (off + 4 + Z.of_nat (length vs) * 16)
      with (off + 4 + 16 * Z.of_nat (length vs)) by lia.
    destruct (inside qlng qlat vs); cbn [orb].
    + split; [reflexivity|].
      cbn [ret fst]. rewrite app_nil_r.
      change (EvPolygon off :: tr) with ([EvPolygon off] ++ tr).
      rewrite polygon_offsets_app, (polygon_offsets_none tr Hnp). reflexivity.
    + split; [exact IHv|].
      change (EvPolygon off :: tr) with ([EvPolygon off] ++ tr).
      rewrite !polygon_offsets_app, (polygon_offsets_none tr Hnp), IHt.
      reflexivity.
Qed.

(** C2. On a Polygon Set whose buffer (shorter than 2^32 bytes, as the
    loader's [unsigned int] length makes it) decodes as its N polygons, the
    hit test returns true exactly when some polygon has an odd number of
    crossed edges, and the polygons it scans are the stored ones in storage
    order, up to and including the first that contains the point. *)
Theorem hit_test_is_first_odd_polygon (d : geo_data) (qlng qlat : float)
    (polys : list (Z * list geo_data_coordinate)) :
  Z.of_nat (length (block_bytes (polygons d))) < 2 ^ 32 ->
  decode_set d = Some polys ->
  geo_data_hit_test (Some d) qlng qlat
  = Some (existsb (fun p => inside qlng qlat (snd p)) polys)
  /\ polygon_offsets (fst (geo_data_hit_test_run (Some d) qlng qlat))
     = scanned qlng qlat polys.
Proof.
  intros Hlen Hdec. unfold geo_data_hit_test, geo_data_hit_test_run.
  exact (scan_polygons_decoded _ qlng qlat Hlen _ _ _ Hdec).
Qed.

Lemma hit_test_is_first_odd_polygon_witness :
  Z.of_nat (length (block_bytes (polygons unit_square_set))) < 2 ^ 32
  /\ decode_set unit_square_set = Some [(0, unit_square_vertices)]
  /\ geo_data_hit_test (Some unit_square_set) 0.5 0.5
     = Some (existsb (fun p => inside 0.5 0.5 (snd p)) [(0, unit_square_vertices)])
  /\ polygon_offsets (fst (geo_data_hit_test_run (Some unit_square_set) 0.5 0.5))
     = scanned 0.5 0.5 [(0, unit_square_vertices)].
Proof.
  assert (H1 : Z.of_nat (length (block_bytes (polygons unit_square_set))) < 2 ^ 32)
    by (vm_compute; reflexivity).
  assert (H2 : decode_set unit_square_set = Some [(0, unit_square_vertices)])
    by (vm_compute; reflexivity).
  split; [exact H1|]. split; [exact H2|].
  exact (hit_test_is_first_odd_polygon unit_square_set 0.5 0.5
           [(0, unit_square_vertices)] H1 H2).
Defined.

(** The unit square of the specification's containment test. *)
Example unit_square_queries :
  geo_data_hit_test (Some unit_square_set) 0.5 0.5 = Some true
  /\ geo_data_hit_test (Some unit_square_set) 2 2 = Some false
  /\ geo_data_hit_test (Some unit_square_set) (-0.5) 0.5 = Some false.
Proof. repeat split; vm_compute; reflexivity. Qed.

(** ** The parity flag, edge by edge *)

Lemma crosses_half_open (qlng qlat : float) (ci cj : geo_data_coordinate) :
  crosses qlng qlat ci cj = true <-> crossed_half_open qlng qlat ci cj.
Proof.
  unfold crosses, straddles, crossed_half_open.
  rewrite andb_true_iff, orb_true_iff, !andb_true_iff. reflexivity.
Qed.

Lemma xorb_differs (c b : bool) : xorb c b <> c <-> b = true.
Proof. destruct c, b; simpl; split; congruence. Qed.

(** C1, amended. In the scan of a decoded polygon the flag after
    iteration [i] of the edge loop differs from the flag before it exactly
    when, for vertex [i] and the vertex paired with it (vertex [i-1], the
    last vertex for [i = 0]), one longitude is <= the query longitude while
    the other is > it, and the query latitude is below the interpolated
    latitude of the edge. The scan runs one iteration per vertex. *)
Theorem edge_toggles_parity_half_open (buf : pointer) (qlng qlat : float)
    (off : Z) (vs : list geo_data_coordinate) (i : nat) :
  Z.of_nat (length (block_bytes buf)) < 2 ^ 32 ->
  decode_polygon buf off = Some vs ->
  (i < length vs)%nat ->
  let l := Z.of_nat (length vs) in
  exists c c' c_end,
    snd (edge_loop buf qlng qlat (off + 4) i 0 (l - 1) false) = Some c
    /\ snd (edge_loop buf qlng qlat (off + 4) (S i) 0 (l - 1) false) = Some c'
    /\ (c' <> c
        <-> crossed_half_open qlng qlat (vertex vs i) (vertex vs (previous vs i)))
    /\ snd (edge_loop buf qlng qlat (off + 4) (length vs) 0 (l - 1) false)
       = Some c_end
    /\ snd (scan_polygon buf qlng qlat off) = Some (c_end, l).
Proof.
  intros Hlen Hdec Hi l.
  destruct (decode_polygon_at _ _ _ Hdec) as (Hv & Hfit & Hat).
  pose proof (edge_loop_parity buf qlng qlat (off + 4) vs Hat) as Hloop.
  assert (Hj : forall count : nat, count <> 0%nat ->
                 l - 1 = Z.of_nat (previous vs 0)) by (intros; simpl; lia).
  pose proof (Hloop i 0%nat (l - 1) false ltac:(lia) (Hj i)) as Hc.
  pose proof (Hloop (S i) 0%nat (l - 1) false ltac:(lia) (Hj (S i))) as Hc'.
  pose proof (Hloop (length vs) 0%nat (l - 1) false ltac:(lia) (Hj _)) as Hend.
  cbn [Z.of_nat] in Hc, Hc', Hend.
  do 3 eexists. split; [exact Hc|]. split; [exact Hc'|]. split.
  - rewrite seq_S, map_app, crossings_app, Nat.odd_add. cbn [map Nat.add].
    rewrite (odd_crossings_cons qlng qlat _ _ []). cbn [crossings filter length Nat.odd].
    rewrite !xorb_false_l, xorb_false_r.
    rewrite xorb_differs. apply crosses_half_open.
  - split; [exact Hend|].
    rewrite (scan_polygon_decoded buf qlng qlat off vs Hlen Hdec).
    unfold inside, edges. rewrite xorb_false_l. reflexivity.
Qed.

Lemma edge_toggles_parity_half_open_witness :
  Z.of_nat (length (block_bytes (Block segment_polygon))) < 2 ^ 32
  /\ decode_polygon (Block segment_polygon) 0 = Some segment_vertices
  /\ (0 < length segment_vertices)%nat
  /\ exists c c' c_end,
       snd (edge_loop (Block segment_polygon) 0 (-1) (0 + 4) 0 0 (2 - 1) false)
       = Some c
       /\ snd (edge_loop (Block segment_polygon) 0 (-1) (0 + 4) 1 0 (2 - 1) false)
          = Some c'
       /\ (c' <> c
           <-> crossed_half_open 0 (-1) (vertex segment_vertices 0)
                 (vertex segment_vertices (previous segment_vertices 0)))
       /\ snd (edge_loop (Block segment_polygon) 0 (-1) (0 + 4) 2 0 (2 - 1) false)
          = Some c_end
       /\ snd (scan_polygon (Block segment_polygon) 0 (-1) 0) = Some (c_end, 2).
Proof.
  assert (H1 : Z.of_nat (length (block_bytes (Block segment_polygon))) < 2 ^ 32)
    by (vm_compute; reflexivity).
  assert (H2 : decode_polygon (Block segment_polygon) 0 = Some segment_vertices)
    by (vm_compute; reflexivity).
  assert (H3 : (0 < length segment_vertices)%nat) by (simpl; lia).
  split; [exact H1|]. split; [exact H2|]. split; [exact H3|].
  exact (edge_toggles_parity_half_open (Block segment_polygon) 0 (-1) 0
           segment_vertices 0 H1 H2 H3).
Defined.

(** C1 as worded fails: on the polygon (0,0), (1,10) with the query
    (0,-1) the first iteration pairs (0,0) with (1,10) and sets the flag,
    although both longitudes are >= the query longitude. *)
Lemma edge_toggle_not_as_specified :
  ~ (forall (buf : pointer) (qlng qlat : float) (off : Z)
            (vs : list geo_data_coordinate) (i : nat),
        Z.of_nat (length (block_bytes buf)) < 2 ^ 32 ->
        decode_polygon buf off = Some vs ->
        (i < length vs)%nat ->
        exists c c',
          snd (edge_loop buf qlng qlat (off + 4) i 0
                 (Z.of_nat (length vs) - 1) false) = Some c
          /\ snd (edge_loop buf qlng qlat (off + 4) (S i) 0
                    (Z.of_nat (length vs) - 1) false) = Some c'
          /\ (c' <> c
              <-> crossed_as_specified qlng qlat (vertex vs i)
                    (vertex vs (previous vs i)))).
Proof.
  intros H.
  destruct (H (Block segment_polygon) 0%float (-1)%float 0 segment_vertices 0%nat)
    as (c & c' & Hc & Hc' & Hiff).
  - vm_compute. reflexivity.
  - vm_compute. reflexivity.
  - simpl. lia.
  - vm_compute in Hc, Hc'. injection Hc as <-. injection Hc' as <-.
    destruct Hiff as [Hto _]. specialize (Hto ltac:(discriminate)).
    destruct Hto as [[[_ Hlt]|[_ Hlt]] _]; vm_compute in Hlt; discriminate.
Qed.

(** ** The range test of the query entry point *)

(** C5, amended. Whatever the object holds, a query whose longitude or latitude is
    below -180 or above 180 is answered false before the hit test is
    called: the run has no step at all. *)
Theorem contains_out_of_range (obj : GeoData) (qlng qlat : float) :
  (qlng <? -180)%float = true \/ (180 <? qlng)%float = true
  \/ (qlat <? -180)%float = true \/ (180 <? qlat)%float = true ->
  Contains_run obj (Some qlng) (Some qlat) = ([], Some false)
  /\ Contains obj (Some qlng) (Some qlat) = Some false.
Proof.
  intros H.
  assert (E : (qlng <? -180)%float || (180 <? qlng)%float
              || (qlat <? -180)%float || (180 <? qlat)%float = true).
  { rewrite !orb_true_iff. tauto. }
  unfold Contains, Contains_run. rewrite E. split; reflexivity.
Qed.

Lemma contains_out_of_range_witness :
  ((200 <? -180)%float = true \/ (180 <? 200)%float = true
   \/ (0 <? -180)%float = true \/ (180 <? 0)%float = true)
  /\ Contains_run {| geo_data_ := Some unit_square_set |} (Some 200%float)
       (Some 0%float) = ([], Some false)
  /\ Contains {| geo_data_ := Some unit_square_set |} (Some 200%float)
       (Some 0%float) = Some false.
Proof.
  assert (H : (200 <? -180)%float = true \/ (180 <? 200)%float = true
              \/ (0 <? -180)%float = true \/ (180 <? 0)%float = true)
    by (right; left; vm_compute; reflexivity).
  split; [exact H|].
  exact (contains_out_of_range {| geo_data_ := Some unit_square_set |} 200 0 H).
Defined.

(** Missing arguments are read as -320 and fall under the same test. *)
Lemma contains_undefined_arguments (obj : GeoData) (arg1 : option float) :
  Contains_run obj None arg1 = ([], Some false).
Proof. reflexivity. Qed.

(** ** The null set and the empty set *)

Lemma hit_test_no_polygon (p : pointer) (qlng qlat : float) :
  geo_data_hit_test_run (Some {| num_polygons := 0; polygons := p |}) qlng qlat
  = ([], Some false).
Proof. reflexivity. Qed.

Lemma contains_no_scan (obj : GeoData) (arg0 arg1 : option float) :
  (forall qlng qlat,
     geo_data_hit_test_run (geo_data_ obj) qlng qlat = ([], Some false)) ->
  Contains_run obj arg0 arg1 = ([], Some false).
Proof.
  intros H. unfold Contains_run.
  destruct (_ || _)%bool; [reflexivity|]. rewrite H. reflexivity.
Qed.

(** C9. Constructing with no path throws nothing and wraps the null
    pointer; on it the hit test and [contains] answer false with no step,
    and neither [geo_data_destroy] nor the destructor frees anything. *)
Theorem null_path_is_empty_set (sys : system) :
  exists obj,
    GeoData_new sys None = Some (obj, None)
    /\ geo_data_ obj = None
    /\ (forall qlng qlat,
          geo_data_hit_test_run (geo_data_ obj) qlng qlat = ([], Some false))
    /\ (forall arg0 arg1, Contains_run obj arg0 arg1 = ([], Some false))
    /\ geo_data_destroy (geo_data_ obj) = []
    /\ GeoData_delete obj = [].
Proof.
  exists {| geo_data_ := None |}.
  repeat split. intros arg0 arg1. apply contains_no_scan. reflexivity.
Qed.

(** C6 fails on the code in one point. A file that starts with the magic
    and a zero polygon count loads, whatever follows the count and whether
    or not memory could be had; the set has count 0, and the hit test and
    [contains] answer false with no step for every query.  But the set has
    no empty buffer: its [polygons] pointer is never assigned, it points to
    no block, nothing can be read through it, and [geo_data_destroy] hands
    it to [free]. *)
Theorem zero_count_leaves_pointer_unassigned (sys : system) (path : string)
    (rest : list byte) :
  fopen sys path = Some (empty_set_file ++ rest) ->
  fseek_end_fails sys = false ->
  fseek_set_fails sys = false ->
  Z.of_nat (length (empty_set_file ++ rest)) < 2 ^ 32 ->
  exists d,
    geo_data_create sys path = Created d
    /\ num_polygons d = 0
    /\ polygons d = Uninitialized
    /\ (forall bytes, polygons d <> Block bytes)
    /\ (forall off n, slice (polygons d) off n = None)
    /\ geo_data_destroy (Some d) = [FreeBlock Uninitialized; FreeStruct]
    /\ (forall qlng qlat,
          geo_data_hit_test_run (Some d) qlng qlat = ([], Some false))
    /\ (forall arg0 arg1,
          Contains_run {| geo_data_ := Some d |} arg0 arg1 = ([], Some false)).
Proof.
  intros Hopen Hend Hset Hlen.
  exists {| num_polygons := 0; polygons := Uninitialized |}.
  split.
  - unfold geo_data_create. rewrite Hopen, Hend, Hset.
    rewrite u32_small by lia.
    rewrite length_app in *. change (length empty_set_file) with 8%nat in *.
    destruct (Z.of_nat (8 + length rest) <? 4 + 4) eqn:E;
      [apply Z.ltb_lt in E; lia|].
    reflexivity.
  - cbn [num_polygons polygons].
    split; [reflexivity|]. split; [reflexivity|].
    split; [intros bytes; discriminate|]. split; [reflexivity|].
    split; [reflexivity|]. split; [reflexivity|].
    intros arg0 arg1. apply contains_no_scan. reflexivity.
Qed.

Lemma zero_count_leaves_pointer_unassigned_witness :
  fopen (plain_system empty_set_file) "empty.geo" = Some (empty_set_file ++ [])
  /\ fseek_end_fails (plain_system empty_set_file) = false
  /\ fseek_set_fails (plain_system empty_set_file) = false
  /\ Z.of_nat (length (empty_set_file ++ [])) < 2 ^ 32
  /\ exists d,
       geo_data_create (plain_system empty_set_file) "empty.geo" = Created d
       /\ num_polygons d = 0
       /\ polygons d = Uninitialized
       /\ (forall bytes, polygons d <> Block bytes)
       /\ (forall off n, slice (polygons d) off n = None)
       /\ geo_data_destroy (Some d) = [FreeBlock Uninitialized; FreeStruct]
       /\ (forall qlng qlat,
             geo_data_hit_test_run (Some d) qlng qlat = ([], Some false))
       /\ (forall arg0 arg1,
             Contains_run {| geo_data_ := Some d |} arg0 arg1 = ([], Some false)).
Proof.
  assert (H1 : fopen (plain_system empty_set_file) "empty.geo"
               = Some (empty_set_file ++ [])) by reflexivity.
  assert (H4 : Z.of_nat (length (empty_set_file ++ [])) < 2 ^ 32)
    by (vm_compute; reflexivity).
  split; [exact H1|]. split; [reflexivity|]. split; [reflexivity|].
  split; [exact H4|].
  exact (zero_count_leaves_pointer_unassigned (plain_system empty_set_file)
           "empty.geo" [] H1 eq_refl eq_refl H4).
Defined.

(** [geo_data_destroy] on a loaded set with no polygon hands the pointer
    that was never assigned to [free]. *)
Lemma destroy_empty_set_frees_unassigned_pointer :
  geo_data_destroy (Some {| num_polygons := 0; polygons := Uninitialized |})
  = [FreeBlock Uninitialized; FreeStruct].
Proof. reflexivity. Qed.

(** A NaN coordinate is neither below -180 nor above 180: the query goes
    on to the hit test, which scans and answers false. *)
Example contains_nan_scans :
  Contains_run {| geo_data_ := Some unit_square_set |} (Some nan) (Some 0.5%float)
  = ([EvPolygon 0; EvEdge 0 3; EvEdge 1 0; EvEdge 2 1; EvEdge 3 2], Some false).
Proof. vm_compute. reflexivity. Qed.

(** C5 as worded fails: NaN lies outside the closed interval from -180 to
    180, yet for the query (NaN, 0.5) on the unit square [contains] goes
    through the range test and scans the polygon. *)
Lemma nan_is_outside_and_scanned :
  ~ (forall (obj : GeoData) (qlng qlat : float),
        ~ ((-180 <=? qlng)%float = true /\ (qlng <=? 180)%float = true)
        \/ ~ ((-180 <=? qlat)%float = true /\ (qlat <=? 180)%float = true) ->
        Contains_run obj (Some qlng) (Some qlat) = ([], Some false)).
Proof.
  intros H.
  specialize (H {| geo_data_ := Some unit_square_set |} nan 0.5%float).
  rewrite contains_nan_scans in H.
  assert (Hout : ~ ((-180 <=? nan)%float = true /\ (nan <=? 180)%float = true)
                 \/ ~ ((-180 <=? 0.5)%float = true
                       /\ (0.5 <=? 180)%float = true)).
  { left. intros [E _]. vm_compute in E. discriminate E. }
  specialize (H Hout). discriminate H.
Qed.

(** The constructor tests [status <= 0] with [status] still 0 after a
    successful load, so it throws "Unknown" for a file that loaded. *)
Lemma constructor_throws_after_successful_load :
  exists obj,
    GeoData_new (plain_system empty_set_file) (Some "empty.geo"%string)
    = Some (obj, Some "Unknown"%string)
    /\ geo_data_ obj <> None.
Proof. eexists. split; [vm_compute; reflexivity|]. simpl. discriminate. Qed.

(** ** Polygons with no vertex *)

(** C7. A polygon record whose count field lies inside the payload and
    holds 0 passes both tests of the verification loop, which goes on with
    the next record four bytes further; in the hit test its edge loop runs
    no iteration, its flag stays false, and the scan goes on with the next
    record. *)
Theorem zero_vertex_polygon (buf : pointer) (buffer_len : Z) (count : nat)
    (offset polygon_ptr : Z) (qlng qlat : float) :
  load_u32 buf polygon_ptr = Some 0 ->
  0 <= offset ->
  offset + 4 <= buffer_len ->
  buffer_len < 2 ^ 32 ->
  verify buf buffer_len (S count) offset polygon_ptr
  = verify buf buffer_len count (offset + 4) (polygon_ptr + 4)
  /\ scan_polygon buf qlng qlat polygon_ptr
     = ([EvPolygon polygon_ptr], Some (false, 0))
  /\ edge_iterations (fst (scan_polygon buf qlng qlat polygon_ptr)) = 0%nat
  /\ scan_polygons buf qlng qlat (S count) polygon_ptr
     = (EvPolygon polygon_ptr
          :: fst (scan_polygons buf qlng qlat count (polygon_ptr + 4)),
        snd (scan_polygons buf qlng qlat count (polygon_ptr + 4))).
Proof.
  intros Hload H0 Hfit Hlen.
  assert (Hscan : scan_polygon buf qlng qlat polygon_ptr
                  = ([EvPolygon polygon_ptr], Some (false, 0))).
  { unfold scan_polygon, bind, lift, emit, ret. simpl. rewrite Hload. reflexivity. }
  split.
  - cbn [verify]. rewrite Hload.
    rewrite (polygon_len_wraps 0) by lia.
    change (u32 (4 + 16 * 0)) with 4.
    rewrite (u32_small (offset + 4)) by lia.
    destruct (offset + 4 >? buffer_len) eqn:E; [|reflexivity].
    apply Z.gtb_lt in E. lia.
  - split; [exact Hscan|]. split; [rewrite Hscan; reflexivity|].
    cbn [scan_polygons]. rewrite Hscan. unfold bind. cbn [fst snd].
    replace (polygon_ptr + 4 + 0 * 16) with (polygon_ptr + 4) by lia.
    reflexivity.
Qed.

Lemma zero_vertex_polygon_witness :
  load_u32 (Block uint32_0) 0 = Some 0
  /\ 0 <= 0
  /\ 0 + 4 <= 4
  /\ 4 < 2 ^ 32
  /\ geo_data_create (plain_system zero_vertex_file) "degenerate.geo"
     = Created {| num_polygons := 1; polygons := Block uint32_0 |}
  /\ verify (Block uint32_0) 4 1 0 0 = verify (Block uint32_0) 4 0 (0 + 4) (0 + 4)
  /\ scan_polygon (Block uint32_0) 0.5 0.5 0 = ([EvPolygon 0], Some (false, 0))
  /\ edge_iterations (fst (scan_polygon (Block uint32_0) 0.5 0.5 0)) = 0%nat
  /\ scan_polygons (Block uint32_0) 0.5 0.5 1 0
     = (EvPolygon 0 :: fst (scan_polygons (Block uint32_0) 0.5 0.5 0 (0 + 4)),
        snd (scan_polygons (Block uint32_0) 0.5 0.5 0 (0 + 4))).
Proof.
  assert (H1 : load_u32 (Block uint32_0) 0 = Some 0) by reflexivity.
  assert (H2 : 0 <= 0) by lia.
  assert (H3 : 0 + 4 <= 4) by lia.
  assert (H4 : 4 < 2 ^ 32) by (vm_compute; reflexivity).
  split; [exact H1|]. split; [exact H2|]. split; [exact H3|]. split; [exact H4|].
  split; [vm_compute; reflexivity|].
  exact (zero_vertex_polygon (Block uint32_0) 4 0 0 0 0.5 0.5 H1 H2 H3 H4).
Defined.

(** ** Vertex counts that wrap *)

Lemma edge_loop_outside (buf : pointer) (qlng qlat : float) (coords i j : Z)
    (c : bool) (count : nat) :
  load_double buf (coords + 16 * i) = None ->
  snd (edge_loop buf qlng qlat coords (S count) i j c) = None.
Proof.
  intros H. cbn [edge_loop]. unfold edge_step.
  rewrite bind_none; [reflexivity|].
  rewrite (bind_some (emit (EvEdge i j)) _ tt) by reflexivity. cbn [snd].
  rewrite bind_none; [reflexivity|]. exact H.
Qed.

Lemma scan_polygon_outside (buf : pointer) (qlng qlat : float) (off v : Z) :
  load_u32 buf off = Some v ->
  0 < to_int v ->
  load_double buf (off + 4 + 16 * 0) = None ->
  snd (scan_polygon buf qlng qlat off) = None.
Proof.
  intros Hv Hpos Hout. unfold scan_polygon.
  rewrite (bind_some (emit (EvPolygon off)) _ tt) by reflexivity. cbn [snd].
  rewrite (bind_some (lift (load_u32 buf off)) _ _ Hv). cbn [snd].
  rewrite bind_none; [reflexivity|].
  replace (Z.to_nat (to_int v)) with (S (Z.to_nat (to_int v - 1)))
    by (rewrite <- Z2Nat.inj_succ by lia; f_equal; lia).
  apply edge_loop_outside. exact Hout.
Qed.

(** C3 fails on the code. For the 12-byte file holding the magic, N = 1
    and a vertex count of 2^28, the product V*16 is 2^32 and [polygon_len]
    wraps to 4: the loader accepts the file although 0 + 4 + V*16 exceeds
    the 4-byte payload, and the hit test on the set it returns reads
    outside the buffer for every query. *)
Theorem huge_count_accepted :
  exists d,
    geo_data_create (plain_system huge_count_file) "huge.geo" = Created d
    /\ num_polygons d = 1
    /\ Z.of_nat (length (block_bytes (polygons d))) = 4
    /\ load_u32 (polygons d) 0 = Some (2 ^ 28)
    /\ 0 + 4 + 2 ^ 28 * 16 > Z.of_nat (length (block_bytes (polygons d)))
    /\ forall qlng qlat, geo_data_hit_test (Some d) qlng qlat = None.
Proof.
  eexists. split; [vm_compute; reflexivity|].
  split; [reflexivity|]. split; [reflexivity|]. split; [reflexivity|].
  split; [vm_compute; reflexivity|].
  intros qlng qlat. unfold geo_data_hit_test, geo_data_hit_test_run.
  cbn [num_polygons polygons]. change (Z.to_nat 1) with 1%nat.
  cbn [scan_polygons]. rewrite bind_none; [reflexivity|].
  apply (scan_polygon_outside _ qlng qlat 0 (2 ^ 28)).
  - reflexivity.
  - vm_compute. reflexivity.
  - vm_compute. reflexivity.
Qed.

(** ** The verification loop against the exact layout *)

Lemma declared_extents_total (buf : pointer) :
  forall count off exts,
    declared_extents buf count off = Some exts ->
    0 <= total exts /\ length exts = count.
Proof.
  induction count as [|count IH]; intros off exts H; cbn [declared_extents] in H.
  - injection H as <-. unfold total. simpl. lia.
  - destruct (load_u32 buf off) as [v|] eqn:Hv; [|discriminate].
    destruct (declared_extents buf count (off + 4 + 16 * v)) as [rest|] eqn:Hr;
      [|discriminate].
    cbn [option_map] in H. apply some_eq in H. subst exts.
    destruct (IH _ _ Hr) as [Ht Hl].
    destruct (load_u32_inside _ _ _ Hv) as (Hrange & _).
    unfold total in *. cbn [fold_right length]. split; lia.
Qed.

(** Records that fit are passed over without any wrap-around. *)
Lemma verify_fitting_prefix (bytes : list byte) :
  Z.of_nat (length bytes) < 2 ^ 32 ->
  forall k m off exts,
    0 <= off ->
    declared_extents (Block bytes) k off = Some exts ->
    off + total exts <= Z.of_nat (length bytes) ->
    verify (Block bytes) (Z.of_nat (length bytes)) (k + m) off off
    = verify (Block bytes) (Z.of_nat (length bytes)) m
        (off + total exts) (off + total exts).
Proof.
  intros Hlen. induction k as [|k IH]; intros m off exts Hoff Hext Hfit;
    cbn [declared_extents] in Hext.
  - injection Hext as <-. unfold total. cbn [fold_right Nat.add]. rewrite Z.add_0_r. reflexivity.
  - destruct (load_u32 (Block bytes) off) as [v|] eqn:Hv; [|discriminate].
    destruct (declared_extents (Block bytes) k (off + 4 + 16 * v))
      as [rest|] eqn:Hr; [|discriminate].
    cbn [option_map] in Hext. apply some_eq in Hext. subst exts.
    destruct (declared_extents_total _ _ _ _ Hr) as [Ht _].
    destruct (load_u32_inside _ _ _ Hv) as (Hrange & _ & Hin).
    assert (Htot : total ((4 + 16 * v) :: rest) = 4 + 16 * v + total rest)
      by reflexivity.
    rewrite Htot in *.
    cbn [Nat.add verify]. rewrite Hv.
    rewrite (polygon_len_wraps v Hrange).
    rewrite (u32_small (off + 4)) by lia.
    rewrite (u32_small (4 + 16 * v)) by lia.
    rewrite (u32_small (off + (4 + 16 * v))) by lia.
    destruct (off + 4 >? Z.of_nat (length bytes)) eqn:E1;
      [apply Z.gtb_lt in E1; cbn [block_bytes] in *; lia|].
    destruct (off + (4 + 16 * v) >? Z.of_nat (length bytes)) eqn:E2;
      [apply Z.gtb_lt in E2; lia|].
    replace (off + (4 + 16 * v)) with (off + 4 + 16 * v) by lia.
    rewrite (IH m _ rest) by (assumption || lia).
    f_equal; lia.
Qed.

(** Without wrap-around the loop decides exactly whether the records fit,
    and never reads outside the buffer. *)
Lemma verify_exact (bytes : list byte) :
  Z.of_nat (length bytes) < 2 ^ 32 ->
  forall count off,
    0 <= off <= Z.of_nat (length bytes) ->
    no_overflow (Block bytes) count off = true ->
    match verify (Block bytes) (Z.of_nat (length bytes)) count off off with
    | Accepted =>
        exists exts,
          declared_extents (Block bytes) count off = Some exts
          /\ off + total exts <= Z.of_nat (length bytes)
    | Rejected f =>
        (f = CountOutsidePayload \/ f = VerticesOutsidePayload)
        /\ forall exts,
             declared_extents (Block bytes) count off = Some exts ->
             off + total exts > Z.of_nat (length bytes)
    | ReadOutside => False
    end.
Proof.
  intros Hlen. induction count as [|count IH]; intros off Hoff Hno.
  - cbn [verify declared_extents]. exists []. split; [reflexivity|]. unfold total. cbn [fold_right]. lia.
  - cbn [no_overflow] in Hno. apply andb_true_iff in Hno. destruct Hno as [Hno4 Hno].
    apply Z.ltb_lt in Hno4.
    cbn [verify declared_extents]. rewrite (u32_small (off + 4)) by lia.
    destruct (off + 4 >? Z.of_nat (length bytes)) eqn:E1.
    + apply Z.gtb_lt in E1. split; [left; reflexivity|].
      intros exts H.
      destruct (load_u32 (Block bytes) off) as [v|] eqn:Hv; [|discriminate].
      destruct (load_u32_inside _ _ _ Hv) as (_ & _ & Hin). cbn [block_bytes] in Hin. lia.
    + assert (Hin : off + 4 <= Z.of_nat (length bytes))
        by (destruct (Z.gtb_spec (off + 4) (Z.of_nat (length bytes))); [discriminate|lia]).
      destruct (load_u32_some bytes off ltac:(lia) Hin) as [v Hv].
      rewrite Hv in *.
      destruct (load_u32_inside _ _ _ Hv) as (Hrange & _).
      apply andb_true_iff in Hno. destruct Hno as [Hnov Hno].
      apply Z.ltb_lt in Hnov.
      rewrite (polygon_len_wraps v Hrange).
      rewrite (u32_small (4 + 16 * v)) by lia.
      rewrite (u32_small (off + (4 + 16 * v))) by lia.
      replace (off + (4 + 16 * v)) with (off + 4 + 16 * v) by lia.
      destruct (off + 4 + 16 * v >? Z.of_nat (length bytes)) eqn:E2.
      * apply Z.gtb_lt in E2. split; [right; reflexivity|].
        intros exts H.
        destruct (declared_extents (Block bytes) count (off + 4 + 16 * v))
          as [rest|] eqn:Hr; [|discriminate].
        cbn [option_map] in H. apply some_eq in H. subst exts.
        destruct (declared_extents_total _ _ _ _ Hr) as [Ht _].
        change (total ((4 + 16 * v) :: rest)) with (4 + 16 * v + total rest). lia.
      * assert (Hfit : off + 4 + 16 * v <= Z.of_nat (length bytes))
          by (destruct (Z.gtb_spec (off + 4 + 16 * v) (Z.of_nat (length bytes)));
              [discriminate|lia]).
        apply orb_true_iff in Hno. destruct Hno as [Hno|Hno];
          [apply Z.ltb_lt in Hno; cbn [block_bytes] in Hno; lia|].
        specialize (IH (off + 4 + 16 * v) ltac:(lia) Hno).
        destruct (verify (Block bytes) (Z.of_nat (length bytes)) count
                    (off + 4 + 16 * v) (off + 4 + 16 * v)) as [|f|].
        -- destruct IH as (rest & Hr & Hle). rewrite Hr. cbn [option_map].
           eexists. split; [reflexivity|].
           change (total ((4 + 16 * v) :: rest)) with (4 + 16 * v + total rest). lia.
        -- destruct IH as [Hf Hall]. split; [exact Hf|].
           intros exts H.
           destruct (declared_extents (Block bytes) count (off + 4 + 16 * v))
             as [rest|] eqn:Hr; [|discriminate].
           cbn [option_map] in H. apply some_eq in H. subst exts.
           specialize (Hall rest eq_refl).
           change (total ((4 + 16 * v) :: rest)) with (4 + 16 * v + total rest). lia.
        -- exact IH.
Qed.

(** Records that fit decode: a buffer the verification loop is right to
    accept is one the hit test is defined on. *)
Lemma load_double_some (bytes : list byte) (off : Z) :
  0 <= off -> off + 8 <= Z.of_nat (length bytes) ->
  exists x, load_double (Block bytes) off = Some x.
Proof.
  intros H0 H1. destruct (slice_some bytes off 8 H0) as [bs Hs]; [lia|].
  unfold load_double. rewrite Hs. cbn [option_map]. eauto.
Qed.

Lemma decode_coordinates_some (bytes : list byte) :
  forall count off,
    0 <= off ->
    off + 16 * Z.of_nat count <= Z.of_nat (length bytes) ->
    exists vs, decode_coordinates (Block bytes) off count = Some vs
               /\ length vs = count.
Proof.
  induction count as [|count IH]; intros off H0 Hfit.
  - exists []. split; reflexivity.
  - destruct (load_double_some bytes off H0 ltac:(lia)) as [x Hx].
    destruct (load_double_some bytes (off + 8) ltac:(lia) ltac:(lia)) as [y Hy].
    destruct (IH (off + 16) ltac:(lia) ltac:(lia)) as (rest & Hrest & Hlen).
    cbn [decode_coordinates]. rewrite Hx, Hy, Hrest. cbn [option_map].
    eexists. split; [reflexivity|]. cbn [length]. congruence.
Qed.

Lemma fitting_records_decode (bytes : list byte) :
  forall count off exts,
    0 <= off ->
    declared_extents (Block bytes) count off = Some exts ->
    off + total exts <= Z.of_nat (length bytes) ->
    exists polys, decode_polygons (Block bytes) count off = Some polys.
Proof.
  induction count as [|count IH]; intros off exts H0 Hext Hfit;
    cbn [declared_extents] in Hext.
  - exists []. reflexivity.
  - destruct (load_u32 (Block bytes) off) as [v|] eqn:Hv; [|discriminate].
    destruct (declared_extents (Block bytes) count (off + 4 + 16 * v))
      as [rest|] eqn:Hr; [|discriminate].
    cbn [option_map] in Hext. apply some_eq in Hext. subst exts.
    destruct (declared_extents_total _ _ _ _ Hr) as [Ht _].
    destruct (load_u32_inside _ _ _ Hv) as (Hrange & _ & _).
    change (total ((4 + 16 * v) :: rest)) with (4 + 16 * v + total rest) in Hfit.
    destruct (decode_coordinates_some bytes (Z.to_nat v) (off + 4)
                ltac:(lia) ltac:(lia)) as (vs & Hvs & Hlen).
    assert (Hv' : Z.of_nat (length vs) = v) by lia.
    destruct (IH (off + 4 + 16 * v) rest ltac:(lia) Hr ltac:(lia))
      as (polys & Hpolys).
    cbn [decode_polygons]. unfold decode_polygon. rewrite Hv.
    cbn [block_bytes].
    destruct (Z.leb_spec (off + 4 + 16 * v) (Z.of_nat (length bytes))); [|lia].
    rewrite Hvs, Hv', Hpolys. cbn [option_map]. eauto.
Qed.

(** ** The loader, branch by branch *)

Lemma file_len_le (contents : list byte) :
  0 <= file_len contents <= Z.of_nat (length contents)
  /\ file_len contents < 2 ^ 32.
Proof.
  unfold file_len, u32.
  pose proof (Z.mod_pos_bound (Z.of_nat (length contents)) (2 ^ 32) ltac:(lia)).
  pose proof (Z.mod_le (Z.of_nat (length contents)) (2 ^ 32) ltac:(lia) ltac:(lia)).
  lia.
Qed.

Lemma file_len_small (contents : list byte) :
  Z.of_nat (length contents) < 2 ^ 32 ->
  file_len contents = Z.of_nat (length contents).
Proof. intros H. unfold file_len. apply u32_small. lia. Qed.

Lemma fread_length (contents : list byte) (pos n : Z) :
  0 <= pos -> 0 <= n -> pos + n <= Z.of_nat (length contents) ->
  Z.of_nat (length (fread contents pos n)) = n.
Proof.
  intros Hp Hn Hle. unfold fread. rewrite length_firstn, length_skipn. lia.
Qed.

Lemma payload_length (contents : list byte) :
  8 <= file_len contents ->
  Z.of_nat (length (payload contents)) = file_len contents - 8.
Proof.
  intros H8. destruct (file_len_le contents) as [Hle Hlt].
  unfold payload. rewrite u32_small by lia. apply fread_length; lia.
Qed.

(** The branches a file that could be opened can take: the two read
    failures of the header cannot happen once the length test has passed. *)
Lemma create_branches (sys : system) (path : string) (contents : list byte) :
  fopen sys path = Some contents ->
  geo_data_create sys path
  = if fseek_end_fails sys then Failed SeekEndFailed
    else if fseek_set_fails sys then Failed SeekSetFailed
    else if file_len contents <? 8 then Failed FileTooShort
    else if header_differs (fread contents 0 4) then Failed HeaderMismatch
    else if declared_count contents =? 0 then
      Created {| num_polygons := declared_count contents;
                 polygons := Uninitialized |}
    else if malloc_fails sys then Failed AllocFailed
    else if file_len contents =? 8 then Failed PayloadReadFailed
    else
      match verify (Block (payload contents))
              (Z.of_nat (length (payload contents)))
              (Z.to_nat (declared_count contents)) 0 0 with
      | Accepted =>
          Created {| num_polygons := declared_count contents;
                     polygons := Block (payload contents) |}
      | Rejected f => Failed f
      | ReadOutside => Undefined
      end.
Proof.
  intros Hopen. unfold geo_data_create. rewrite Hopen.
  destruct (fseek_end_fails sys); [reflexivity|].
  destruct (fseek_set_fails sys); [reflexivity|].
  fold (file_len contents). change (4 + 4) with 8.
  destruct (file_len contents <? 8) eqn:E8; [reflexivity|].
  apply Z.ltb_ge in E8.
  destruct (file_len_le contents) as [Hle Hlt].
  pose proof (fread_length contents 0 4 ltac:(lia) ltac:(lia) ltac:(lia)) as Hh.
  pose proof (fread_length contents 4 4 ltac:(lia) ltac:(lia) ltac:(lia)) as Hc.
  destruct (length (fread contents 0 4) =? 0)%nat eqn:Eh;
    [apply Nat.eqb_eq in Eh; lia|].
  destruct (header_differs (fread contents 0 4)); [reflexivity|].
  destruct (length (fread contents 4 4) =? 0)%nat eqn:Ec;
    [apply Nat.eqb_eq in Ec; lia|].
  fold (declared_count contents).
  destruct (declared_count contents =? 0); [reflexivity|].
  destruct (malloc_fails sys); [reflexivity|].
  fold (payload contents).
  pose proof (payload_length contents E8) as Hp.
  rewrite (u32_small (file_len contents - 8)) by lia.
  rewrite <- Hp.
  destruct (file_len contents =? 8) eqn:E.
  - apply Z.eqb_eq in E.
    destruct (length (payload contents) =? 0)%nat eqn:E0; [reflexivity|].
    apply Nat.eqb_neq in E0. lia.
  - apply Z.eqb_neq in E.
    destruct (length (payload contents) =? 0)%nat eqn:E0; [|reflexivity].
    apply Nat.eqb_eq in E0. lia.
Qed.

Lemma header_differs_magic (header : list byte) :
  header_differs header = false <-> header = magic.
Proof.
  split.
  - destruct header as [|h0 [|h1 [|h2 [|h3 [|h4 rest]]]]]; simpl; try discriminate.
    intros H. apply orb_false_iff in H. destruct H as [H H3].
    apply orb_false_iff in H. destruct H as [H H2].
    apply orb_false_iff in H. destruct H as [H0 H1].
    apply negb_false_iff in H0, H1, H2, H3.
    apply Byte.byte_dec_bl in H0, H1, H2, H3. subst. reflexivity.
  - intros ->. reflexivity.
Qed.

Lemma status_of_injective (f1 f2 : load_failure) :
  status_of f1 = status_of f2 -> f1 = f2.
Proof. destruct f1, f2; simpl; intros H; try reflexivity; discriminate H. Qed.

(** ** What an accepted file holds *)

(** C4, amended. When a file with N > 0 is accepted and none of the sums
    offset + 4 and offset + 4 + V*16 met on the way reaches 2^32, the byte
    extents of its N polygons add up to at most the length of the payload
    buffer (bytes after the last polygon are tolerated); and a file of
    this kind whose payload cannot hold the N polygons is rejected. *)
Theorem accepted_file_fits (sys : system) (path : string) (contents : list byte) :
  fopen sys path = Some contents ->
  declared_count contents <> 0 ->
  no_overflow (Block (payload contents))
    (Z.to_nat (declared_count contents)) 0 = true ->
  (forall d,
     geo_data_create sys path = Created d ->
     num_polygons d = declared_count contents
     /\ polygons d = Block (payload contents)
     /\ exists exts,
          declared_extents (polygons d) (Z.to_nat (num_polygons d)) 0 = Some exts
          /\ total exts <= Z.of_nat (length (payload contents)))
  /\ (~ (exists exts,
           declared_extents (Block (payload contents))
             (Z.to_nat (declared_count contents)) 0 = Some exts
           /\ total exts <= Z.of_nat (length (payload contents))) ->
      exists f, geo_data_create sys path = Failed f).
Proof.
  intros Hopen Hn Hno.
  rewrite (create_branches sys path contents Hopen).
  destruct (fseek_end_fails sys); [split; [discriminate|eauto]|].
  destruct (fseek_set_fails sys); [split; [discriminate|eauto]|].
  destruct (file_len contents <? 8) eqn:E8; [split; [discriminate|eauto]|].
  apply Z.ltb_ge in E8.
  destruct (header_differs (fread contents 0 4)); [split; [discriminate|eauto]|].
  destruct (declared_count contents =? 0) eqn:E0;
    [apply Z.eqb_eq in E0; contradiction|].
  destruct (malloc_fails sys); [split; [discriminate|eauto]|].
  destruct (file_len contents =? 8); [split; [discriminate|eauto]|].
  destruct (file_len_le contents) as [_ Hlt].
  pose proof (payload_length contents E8) as Hp.
  pose proof (verify_exact (payload contents) ltac:(lia)
                (Z.to_nat (declared_count contents)) 0 ltac:(lia) Hno) as Hex.
  destruct (verify (Block (payload contents))
              (Z.of_nat (length (payload contents)))
              (Z.to_nat (declared_count contents)) 0 0) as [|f|].
  - destruct Hex as (exts & Hext & Hle). split.
    + intros d Hd. injection Hd as <-. cbn [num_polygons polygons].
      split; [reflexivity|]. split; [reflexivity|].
      exists exts. split; [exact Hext|lia].
    + intros Hnot. exfalso. apply Hnot. exists exts. split; [exact Hext|lia].
  - split; [discriminate|eauto].
  - contradiction.
Qed.

Lemma accepted_file_fits_witness :
  fopen (plain_system trailing_byte_file) "trailing.geo" = Some trailing_byte_file
  /\ declared_count trailing_byte_file <> 0
  /\ no_overflow (Block (payload trailing_byte_file))
       (Z.to_nat (declared_count trailing_byte_file)) 0 = true
  /\ (forall d,
        geo_data_create (plain_system trailing_byte_file) "trailing.geo"
        = Created d ->
        num_polygons d = declared_count trailing_byte_file
        /\ polygons d = Block (payload trailing_byte_file)
        /\ exists exts,
             declared_extents (polygons d) (Z.to_nat (num_polygons d)) 0
             = Some exts
             /\ total exts <= Z.of_nat (length (payload trailing_byte_file)))
  /\ geo_data_create (plain_system trailing_byte_file) "trailing.geo"
     = Created {| num_polygons := 1; polygons := Block (uint32_0 ++ [xff]) |}.
Proof.
  assert (H1 : fopen (plain_system trailing_byte_file) "trailing.geo"
               = Some trailing_byte_file) by reflexivity.
  assert (H2 : declared_count trailing_byte_file <> 0)
    by (vm_compute; discriminate).
  assert (H3 : no_overflow (Block (payload trailing_byte_file))
                 (Z.to_nat (declared_count trailing_byte_file)) 0 = true)
    by (vm_compute; reflexivity).
  split; [exact H1|]. split; [exact H2|]. split; [exact H3|].
  split; [|vm_compute; reflexivity].
  exact (proj1 (accepted_file_fits (plain_system trailing_byte_file)
                  "trailing.geo" trailing_byte_file H1 H2 H3)).
Defined.

(** C4 as worded fails: a file holding one polygon with no vertex and one
    more byte is accepted, with a polygon extent of 4 and a payload buffer
    of 5 bytes. *)
Lemma accepted_file_with_trailing_byte :
  ~ (forall (sys : system) (path : string) (contents : list byte)
            (d : geo_data) (exts : list Z),
        fopen sys path = Some contents ->
        geo_data_create sys path = Created d ->
        declared_extents (Block (payload contents))
          (Z.to_nat (declared_count contents)) 0 = Some exts ->
        total exts = Z.of_nat (length (payload contents))).
Proof.
  intros H.
  specialize (H (plain_system trailing_byte_file) "trailing.geo"%string
                trailing_byte_file
                {| num_polygons := 1; polygons := Block (uint32_0 ++ [xff]) |}
                [4] eq_refl).
  assert (Hc : geo_data_create (plain_system trailing_byte_file) "trailing.geo"
               = Created {| num_polygons := 1;
                            polygons := Block (uint32_0 ++ [xff]) |})
    by (vm_compute; reflexivity).
  assert (He : declared_extents (Block (payload trailing_byte_file))
                 (Z.to_nat (declared_count trailing_byte_file)) 0 = Some [4])
    by (vm_compute; reflexivity).
  specialize (H Hc He). vm_compute in H. discriminate H.
Qed.

(** ** The failures of the loader *)

Lemma too_short_fails (sys : system) (path : string) (contents : list byte) :
  fopen sys path = Some contents ->
  fseek_end_fails sys = false ->
  fseek_set_fails sys = false ->
  Z.of_nat (length contents) < 8 ->
  geo_data_create sys path = Failed FileTooShort.
Proof.
  intros Hopen Hend Hset Hlen.
  rewrite (create_branches sys path contents Hopen), Hend, Hset.
  rewrite file_len_small by lia.
  destruct (Z.ltb_spec (Z.of_nat (length contents)) 8); [reflexivity|lia].
Qed.

Lemma wrong_magic_fails (sys : system) (path : string) (contents : list byte) :
  fopen sys path = Some contents ->
  fseek_end_fails sys = false ->
  fseek_set_fails sys = false ->
  8 <= Z.of_nat (length contents) < 2 ^ 32 ->
  firstn 4 contents <> magic ->
  geo_data_create sys path = Failed HeaderMismatch.
Proof.
  intros Hopen Hend Hset Hlen Hmagic.
  rewrite (create_branches sys path contents Hopen), Hend, Hset.
  rewrite file_len_small by lia.
  destruct (Z.ltb_spec (Z.of_nat (length contents)) 8); [lia|].
  change (fread contents 0 4) with (firstn 4 contents).
  destruct (header_differs (firstn 4 contents)) eqn:E; [reflexivity|].
  apply header_differs_magic in E. contradiction.
Qed.

Lemma cut_count_fails (sys : system) (path : string) (contents : list byte)
    (k : nat) (exts : list Z) :
  fopen sys path = Some contents ->
  fseek_end_fails sys = false ->
  fseek_set_fails sys = false ->
  malloc_fails sys = false ->
  8 < Z.of_nat (length contents) < 2 ^ 32 ->
  firstn 4 contents = magic ->
  Z.of_nat k < declared_count contents ->
  declared_extents (Block (payload contents)) k 0 = Some exts ->
  total exts <= Z.of_nat (length (payload contents)) ->
  Z.of_nat (length (payload contents)) < total exts + 4 ->
  geo_data_create sys path = Failed CountOutsidePayload.
Proof.
  intros Hopen Hend Hset Hmalloc Hlen Hmagic Hk Hext Hfit Hcut.
  rewrite (create_branches sys path contents Hopen), Hend, Hset, Hmalloc.
  pose proof (file_len_small contents ltac:(lia)) as Hfl. rewrite Hfl.
  destruct (Z.ltb_spec (Z.of_nat (length contents)) 8); [lia|].
  change (fread contents 0 4) with (firstn 4 contents).
  rewrite (proj2 (header_differs_magic _) Hmagic).
  destruct (Z.eqb_spec (declared_count contents) 0); [lia|].
  destruct (Z.eqb_spec (Z.of_nat (length contents)) 8); [lia|].
  pose proof (payload_length contents ltac:(lia)) as Hp. rewrite Hfl in Hp.
  destruct (declared_extents_total _ _ _ _ Hext) as [Ht _].
  replace (Z.to_nat (declared_count contents))
    with (k + S (Z.to_nat (declared_count contents) - S k))%nat by lia.
  rewrite (verify_fitting_prefix (payload contents) ltac:(lia) k _ 0 exts
             ltac:(lia) Hext ltac:(lia)).
  cbn [verify]. rewrite u32_small by lia.
  destruct (Z.gtb_spec (0 + total exts + 4) (Z.of_nat (length (payload contents))));
    [reflexivity|lia].
Qed.

Lemma empty_payload_fails_at_read (sys : system) (path : string)
    (contents : list byte) :
  fopen sys path = Some contents ->
  fseek_end_fails sys = false ->
  fseek_set_fails sys = false ->
  malloc_fails sys = false ->
  Z.of_nat (length contents) = 8 ->
  firstn 4 contents = magic ->
  declared_count contents <> 0 ->
  geo_data_create sys path = Failed PayloadReadFailed.
Proof.
  intros Hopen Hend Hset Hmalloc Hlen Hmagic Hn.
  rewrite (create_branches sys path contents Hopen), Hend, Hset, Hmalloc.
  rewrite file_len_small by lia. rewrite Hlen.
  change (fread contents 0 4) with (firstn 4 contents).
  rewrite (proj2 (header_differs_magic _) Hmagic).
  destruct (Z.eqb_spec (declared_count contents) 0); [contradiction|].
  reflexivity.
Qed.

(** The length is kept in an [unsigned int]: a file of exactly 2^32 bytes
    is measured as empty and fails the length test whatever it holds. *)
Lemma length_wraps_at_4GiB (sys : system) (path : string) (contents : list byte) :
  fopen sys path = Some contents ->
  fseek_end_fails sys = false ->
  fseek_set_fails sys = false ->
  Z.of_nat (length contents) = 2 ^ 32 ->
  geo_data_create sys path = Failed FileTooShort.
Proof.
  intros Hopen Hend Hset Hlen.
  rewrite (create_branches sys path contents Hopen), Hend, Hset.
  unfold file_len, u32. rewrite Hlen, Z.mod_same by lia. reflexivity.
Qed.

(** C8, amended. For a file that could be opened and measured and is
    shorter than 2^32 bytes: fewer than 8 bytes fail at the length test
    (TruncatedHeader); at least 8 bytes not starting with 'G','E','O','!'
    fail at the header comparison (BadMagic); and, when the buffer could
    be allocated and the payload is not empty, a polygon whose count field
    does not lie inside the payload, the polygons before it fitting, fails
    at the first test of the verification loop (TruncatedPolygonHeader),
    whereas a file of exactly 8 bytes with N > 0 fails at the read of its
    empty payload (an I/O failure).  Failures of different kinds never
    store the same status, and no failure stores 0. *)
Theorem load_failures_are_distinct :
  (forall sys path contents,
     fopen sys path = Some contents ->
     fseek_end_fails sys = false ->
     fseek_set_fails sys = false ->
     Z.of_nat (length contents) < 8 ->
     geo_data_create sys path = Failed FileTooShort)
  /\ (forall sys path contents,
        fopen sys path = Some contents ->
        fseek_end_fails sys = false ->
        fseek_set_fails sys = false ->
        8 <= Z.of_nat (length contents) < 2 ^ 32 ->
        firstn 4 contents <> magic ->
        geo_data_create sys path = Failed HeaderMismatch)
  /\ (forall sys path contents (k : nat) exts,
        fopen sys path = Some contents ->
        fseek_end_fails sys = false ->
        fseek_set_fails sys = false ->
        malloc_fails sys = false ->
        8 < Z.of_nat (length contents) < 2 ^ 32 ->
        firstn 4 contents = magic ->
        Z.of_nat k < declared_count contents ->
        declared_extents (Block (payload contents)) k 0 = Some exts ->
        total exts <= Z.of_nat (length (payload contents)) ->
        Z.of_nat (length (payload contents)) < total exts + 4 ->
        geo_data_create sys path = Failed CountOutsidePayload)
  /\ (forall sys path contents,
        fopen sys path = Some contents ->
        fseek_end_fails sys = false ->
        fseek_set_fails sys = false ->
        malloc_fails sys = false ->
        Z.of_nat (length contents) = 8 ->
        firstn 4 contents = magic ->
        declared_count contents <> 0 ->
        geo_data_create sys path = Failed PayloadReadFailed)
  /\ kind_of PayloadReadFailed = IOError
  /\ kind_of FileTooShort = TruncatedHeader
  /\ kind_of HeaderMismatch = BadMagic
  /\ kind_of CountOutsidePayload = TruncatedPolygonHeader
  /\ kind_of VerticesOutsidePayload = TruncatedPolygonBody
  /\ (forall f1 f2, kind_of f1 <> kind_of f2 -> status_of f1 <> status_of f2)
  /\ (forall f, status_of f <> 0).
Proof.
  split; [exact too_short_fails|].
  split; [exact wrong_magic_fails|].
  split; [exact cut_count_fails|].
  split; [exact empty_payload_fails_at_read|].
  repeat (split; [reflexivity|]).
  split.
  - intros f1 f2 Hk Hs. apply Hk. f_equal. apply status_of_injective. exact Hs.
  - intros f. destruct f; discriminate.
Qed.

Lemma load_failures_are_distinct_witness :
  geo_data_create (plain_system short_file) "short.geo" = Failed FileTooShort
  /\ geo_data_create (plain_system bad_magic_file) "magic.geo"
     = Failed HeaderMismatch
  /\ geo_data_create (plain_system cut_count_file) "cut.geo"
     = Failed CountOutsidePayload.
Proof.
  destruct load_failures_are_distinct as (Hshort & Hmagic & Hcut & _).
  split; [|split].
  - apply (Hshort (plain_system short_file) "short.geo"%string short_file);
      [reflexivity|reflexivity|reflexivity|vm_compute; reflexivity].
  - apply (Hmagic (plain_system bad_magic_file) "magic.geo"%string bad_magic_file);
      [reflexivity|reflexivity|reflexivity
      |split; [vm_compute; discriminate|vm_compute; reflexivity]
      |vm_compute; discriminate].
  - apply (Hcut (plain_system cut_count_file) "cut.geo"%string cut_count_file
             1%nat [4]);
      [reflexivity|reflexivity|reflexivity|reflexivity
      |split; vm_compute; reflexivity
      |reflexivity
      |vm_compute; reflexivity
      |vm_compute; reflexivity
      |vm_compute; discriminate
      |vm_compute; reflexivity].
Defined.

(** C8 as worded fails: in the 8-byte file with N = 1 the count field of
    polygon 0 does not fit in the empty payload, and the loader fails at the
    read of the payload, an I/O failure, not at the verification loop. *)
Lemma empty_payload_is_a_read_failure :
  ~ (forall (sys : system) (path : string) (contents : list byte) (k : nat)
            (exts : list Z),
        fopen sys path = Some contents ->
        fseek_end_fails sys = false ->
        fseek_set_fails sys = false ->
        malloc_fails sys = false ->
        8 <= Z.of_nat (length contents) < 2 ^ 32 ->
        firstn 4 contents = magic ->
        Z.of_nat k < declared_count contents ->
        declared_extents (Block (payload contents)) k 0 = Some exts ->
        total exts <= Z.of_nat (length (payload contents)) ->
        Z.of_nat (length (payload contents)) < total exts + 4 ->
        exists f,
          geo_data_create sys path = Failed f
          /\ kind_of f = TruncatedPolygonHeader).
Proof.
  intros H.
  destruct (H (plain_system bare_header_file) "bare.geo"%string bare_header_file
              0%nat [])
    as (f & Hf & Hkind);
    try reflexivity.
  - split; [vm_compute; discriminate|vm_compute; reflexivity].
  - vm_compute in Hf. injection Hf as <-. discriminate Hkind.
Qed.

(** ** Binary64 subtraction

    The lemmas of this section are about the specification of the
    primitive floats ([SpecFloat]) at precision 53 and maximal exponent
    1024, where the least exponent is -1074. *)

Lemma SFcompare_antisym (x y : spec_float) :
  SFcompare y x = option_map CompOpp (SFcompare x y).
Proof.
  destruct x as [sx|sx| |sx mx ex], y as [sy|sy| |sy my ey]; simpl;
    try (destruct sx; reflexivity); try (destruct sy; reflexivity);
    try (destruct sx, sy; reflexivity); try reflexivity.
  destruct sx, sy; simpl; try reflexivity.
  - rewrite (Z.compare_antisym ex ey). destruct (ex ?= ey); simpl; try reflexivity.
    rewrite (Pos.compare_cont_antisym mx my Eq). reflexivity.
  - rewrite (Z.compare_antisym ex ey). destruct (ex ?= ey); simpl; try reflexivity.
    rewrite (Pos.compare_cont_antisym mx my Eq). reflexivity.
Qed.

Lemma digits2_bounds (p : positive) :
  2 ^ (Zpos (digits2_pos p) - 1) <= Zpos p < 2 ^ Zpos (digits2_pos p).
Proof.
  induction p as [p IH|p IH|]; cbn [digits2_pos].
  - rewrite Pos2Z.inj_succ.
    replace (Z.succ (Zpos (digits2_pos p)) - 1) with (Z.succ (Zpos (digits2_pos p) - 1)) by lia.
    rewrite !Z.pow_succ_r by lia. lia.
  - rewrite Pos2Z.inj_succ.
    replace (Z.succ (Zpos (digits2_pos p)) - 1) with (Z.succ (Zpos (digits2_pos p) - 1)) by lia.
    rewrite !Z.pow_succ_r by lia. lia.
  - simpl. lia.
Qed.

Lemma digits2_shift (m d : positive) :
  Zpos (digits2_pos (Pos.iter xO m d)) = Zpos (digits2_pos m) + Zpos d.
Proof.
  induction d as [|d IH] using Pos.peano_ind.
  - simpl. lia.
  - rewrite Pos.iter_succ. cbn [digits2_pos]. lia.
Qed.

Lemma iter_pos_nat {A} (f : A -> A) (p : positive) (x : A) :
  iter_pos f p x = Nat.iter (Pos.to_nat p) f x.
Proof.
  revert x. induction p as [p IH|p IH|]; intros x; cbn [iter_pos].
  - rewrite !IH. rewrite Pos2Nat.inj_xI.
    rewrite <- Nat.iter_add. rewrite <- Nat.iter_succ_r. f_equal. lia.
  - rewrite !IH. rewrite Pos2Nat.inj_xO. rewrite <- Nat.iter_add. f_equal. lia.
  - reflexivity.
Qed.

Lemma shr_1_m (mrs : shr_record) :
  0 <= shr_m mrs -> shr_m (shr_1 mrs) = shr_m mrs / 2.
Proof.
  destruct mrs as [m r s]. simpl. intros Hm.
  destruct m as [|[p|p|]|p]; simpl; try reflexivity; try lia.
  - rewrite Pos2Z.inj_xI. apply Z.div_unique with 1; lia.
  - rewrite Pos2Z.inj_xO. apply Z.div_unique with 0; lia.
Qed.

Lemma shr_iter_m (n : nat) (mrs : shr_record) :
  0 <= shr_m mrs ->
  shr_m (Nat.iter n shr_1 mrs) = shr_m mrs / 2 ^ Z.of_nat n.
Proof.
  intros Hm. induction n as [|n IH].
  - simpl. rewrite Z.div_1_r. reflexivity.
  - rewrite Nat.iter_succ. rewrite shr_1_m.
    + rewrite IH, Nat2Z.inj_succ, Z.pow_succ_r by lia.
      rewrite Z.div_div by lia. f_equal. lia.
    + rewrite IH. apply Z.div_pos; lia.
Qed.

Lemma shr_record_of_loc_m (m : Z) (l : location) :
  shr_m (shr_record_of_loc m l) = m.
Proof. destruct l as [|[]]; reflexivity. Qed.

Lemma shr_fexp_positive (m : positive) (e : Z) (l : location) :
  -1074 <= e ->
  0 < shr_m (fst (shr_fexp prec emax (Zpos m) e l))
  /\ -1074 <= snd (shr_fexp prec emax (Zpos m) e l).
Proof.
  intros He. unfold shr_fexp, shr, fexp, SpecFloat.emin, Zdigits2, prec, emax.
  pose proof (digits2_bounds m) as [Hlow _].
  set (d := Zpos (digits2_pos m)) in *.
  destruct (Z.max (d + e - 53) (3 - 1024 - 53) - e) as [|k|k] eqn:En;
    cbn [fst snd]; try (rewrite shr_record_of_loc_m; lia).
  rewrite iter_pos_nat, shr_iter_m by (rewrite shr_record_of_loc_m; lia).
  rewrite shr_record_of_loc_m, positive_nat_Z.
  split; [|lia].
  apply Z.div_str_pos. split; [apply Z.pow_pos_nonneg; lia|].
  apply Z.le_trans with (2 ^ (d - 1)); [|exact Hlow].
  apply Z.pow_le_mono_r; lia.
Qed.

Lemma round_nearest_even_ge (mx : Z) (lx : location) :
  mx <= round_nearest_even mx lx.
Proof.
  destruct lx as [|[]]; simpl; try lia. destruct (Z.even mx); lia.
Qed.

Lemma binary_round_aux_nonzero (s s' : bool) (m : positive) (e : Z) (l : location) :
  -1074 <= e ->
  binary_round_aux prec emax s (Zpos m) e l <> S754_zero s'.
Proof.
  intros He. unfold binary_round_aux.
  pose proof (shr_fexp_positive m e l He) as [Hm1 He1].
  destruct (shr_fexp prec emax (Zpos m) e l) as [mrs1 e1]. cbn [fst snd] in *.
  pose proof (round_nearest_even_ge (shr_m mrs1) (loc_of_shr_record mrs1)) as Hr.
  destruct (round_nearest_even (shr_m mrs1) (loc_of_shr_record mrs1))
    as [|m2|m2]; try lia.
  pose proof (shr_fexp_positive m2 e1 loc_Exact He1) as [Hm2 _].
  destruct (shr_fexp prec emax (Zpos m2) e1 loc_Exact) as [mrs2 e2].
  cbn [fst snd] in *.
  destruct (shr_m mrs2) as [|m3|m3]; try lia.
  destruct (e2 <=? emax - prec); discriminate.
Qed.

Lemma binary_round_nonzero (s s' : bool) (m : positive) (e : Z) :
  -1074 <= e ->
  binary_round prec emax s m e <> S754_zero s'.
Proof.
  intros He. unfold binary_round, shl_align.
  destruct (fexp prec emax (Zpos (digits2_pos m) + e) - e) eqn:En;
    apply binary_round_aux_nonzero; try exact He.
  unfold fexp, SpecFloat.emin, prec, emax. lia.
Qed.

Lemma binary_normalize_zero (z e : Z) (s' : bool) :
  -1074 <= e ->
  binary_normalize prec emax z e false = S754_zero s' -> z = 0.
Proof.
  intros He H. destruct z as [|m|m]; [reflexivity| |]; simpl in H;
    exfalso; exact (binary_round_nonzero _ _ _ _ He H).
Qed.

Lemma valid_finite (s : bool) (m : positive) (e : Z) :
  valid_binary (S754_finite s m e) = true ->
  e = Z.max (Zpos (digits2_pos m) + e - 53) (-1074).
Proof.
  unfold SpecFloat.valid_binary, bounded, canonical_mantissa, fexp,
    SpecFloat.emin, prec, emax.
  intros H. apply andb_true_iff in H. destruct H as [H _].
  apply Z.eqb_eq in H. lia.
Qed.

Lemma shl_align_digits (m : positive) (e e' : Z) :
  e' <= e ->
  Zpos (digits2_pos (fst (shl_align m e e'))) = Zpos (digits2_pos m) + (e - e').
Proof.
  intros Hle. unfold shl_align.
  destruct (e' - e) as [|d|d] eqn:E; cbn [fst]; try lia.
  rewrite digits2_shift. lia.
Qed.

Lemma shl_align_same (m : positive) (e : Z) : fst (shl_align m e e) = m.
Proof. unfold shl_align. rewrite Z.sub_diag. reflexivity. Qed.

(** A difference of two binary64 numbers is a zero only when both are
    zeros or they are the same number. *)
Lemma SFsub_zero (x y : spec_float) (s : bool) :
  valid_binary x = true -> valid_binary y = true ->
  SF64sub x y = S754_zero s ->
  (exists sx sy, x = S754_zero sx /\ y = S754_zero sy) \/ x = y.
Proof.
  intros Hx Hy. unfold SF64sub.
  destruct x as [sx|sx| |sx mx ex], y as [sy|sy| |sy my ey]; simpl;
    try discriminate;
    try (destruct sx, sy; discriminate);
    try (destruct sx; discriminate).
  - intros _. left. eauto.
  - intros H.
    pose proof (valid_finite _ _ _ Hx) as Cx.
    pose proof (valid_finite _ _ _ Hy) as Cy.
    apply binary_normalize_zero in H; [|lia].
    pose proof (shl_align_digits mx ex (Z.min ex ey) ltac:(lia)) as Dx.
    pose proof (shl_align_digits my ey (Z.min ex ey) ltac:(lia)) as Dy.
    assert (Hs : sx = sy /\ fst (shl_align mx ex (Z.min ex ey))
                            = fst (shl_align my ey (Z.min ex ey))).
    { unfold cond_Zopp in H.
      destruct sx, sy; try (exfalso; lia);
        (split; [reflexivity|]);
        assert (H' : Zpos (fst (shl_align mx ex (Z.min ex ey)))
                     = Zpos (fst (shl_align my ey (Z.min ex ey)))) by lia;
        injection H' as H'; exact H'. }
    destruct Hs as [-> Hm]. rewrite Hm in Dx.
    assert (He : ex = ey) by lia. subst ey.
    rewrite Z.min_id, !shl_align_same in Hm. subst my. right. reflexivity.
Qed.

Lemma SFcompare_zero_sign (q : spec_float) (s1 s2 : bool) :
  SFcompare q (S754_zero s1) = SFcompare q (S754_zero s2).
Proof. destruct q; reflexivity. Qed.

Lemma eqb_zero_is_zero (x : float) :
  (x =? 0)%float = true -> exists s, Prim2SF x = S754_zero s.
Proof.
  rewrite eqb_spec. change (Prim2SF 0) with (S754_zero false).
  unfold SFeqb.
  destruct (Prim2SF x) as [s|s| |s m e]; [eauto| | |]; simpl;
    try discriminate; destruct s; discriminate.
Qed.

(** Two doubles with a double between them, the lower bound included and
    the upper one excluded, have nonzero differences. *)
Lemma between_differences_nonzero (a q b : float) :
  (a <=? q)%float = true -> (q <? b)%float = true ->
  (b - a =? 0)%float = false /\ (a - b =? 0)%float = false.
Proof.
  rewrite leb_spec, ltb_spec. intros Hle Hlt.
  assert (Hdiff : SFcompare (Prim2SF q) (Prim2SF b)
                  <> SFcompare (Prim2SF q) (Prim2SF a)).
  { intros Hsame. unfold SFltb in Hlt. rewrite Hsame in Hlt.
    unfold SFleb in Hle.
    rewrite (SFcompare_antisym (Prim2SF q) (Prim2SF a)) in Hle.
    destruct (SFcompare (Prim2SF q) (Prim2SF a)) as [[| |]|]; simpl in *;
      discriminate. }
  split.
  - destruct (b - a =? 0)%float eqn:E; [|reflexivity]. exfalso. apply Hdiff.
    destruct (eqb_zero_is_zero _ E) as [s Hz]. rewrite sub_spec in Hz.
    destruct (SFsub_zero _ _ _ (Prim2SF_valid b) (Prim2SF_valid a) Hz)
      as [(sb & sa & -> & ->)| ->]; [apply SFcompare_zero_sign|reflexivity].
  - destruct (a - b =? 0)%float eqn:E; [|reflexivity]. exfalso. apply Hdiff.
    destruct (eqb_zero_is_zero _ E) as [s Hz]. rewrite sub_spec in Hz.
    destruct (SFsub_zero _ _ _ (Prim2SF_valid a) (Prim2SF_valid b) Hz)
      as [(sa & sb & -> & ->)| ->]; [apply SFcompare_zero_sign|reflexivity].
Qed.

Lemma straddles_divisor_nonzero (qlng ilng jlng : float) :
  straddles qlng ilng jlng = true -> (jlng - ilng =? 0)%float = false.
Proof.
  unfold straddles. rewrite orb_true_iff, !andb_true_iff.
  intros [[Hle Hlt]|[Hle Hlt]].
  - exact (proj1 (between_differences_nonzero ilng qlng jlng Hle Hlt)).
  - exact (proj2 (between_differences_nonzero jlng qlng ilng Hle Hlt)).
Qed.

(** ** Divisions in the hit test *)

Lemma edge_step_safe (buf : pointer) (qlng qlat : float) (coords i j : Z)
    (c : bool) :
  Forall (safe_step qlng) (fst (edge_step buf qlng qlat coords i j c)).
Proof.
  unfold edge_step.
  apply bind_steps.
  { apply Forall_cons; [split; [exact I|reflexivity]|apply Forall_nil]. }
  intros _ _. apply bind_steps; [apply Forall_nil|]. intros ilng _.
  apply bind_steps; [apply Forall_nil|]. intros jlng _.
  destruct (straddles qlng ilng jlng) eqn:E; [|apply Forall_nil].
  apply bind_steps; [apply Forall_nil|]. intros jlat _.
  apply bind_steps; [apply Forall_nil|]. intros ilat _.
  apply bind_steps; [|intros _ _; apply Forall_nil].
  apply Forall_cons; [|apply Forall_nil]. split.
  - exists ilng, jlng. split; [exact E|reflexivity].
  - apply (straddles_divisor_nonzero qlng). exact E.
Qed.

Lemma edge_loop_safe (buf : pointer) (qlng qlat : float) (coords : Z) :
  forall count i j c,
    Forall (safe_step qlng) (fst (edge_loop buf qlng qlat coords count i j c)).
Proof.
  induction count as [|count IH]; intros i j c; cbn [edge_loop].
  - apply Forall_nil.
  - apply bind_steps; [apply edge_step_safe|]. intros c' _. apply IH.
Qed.

Lemma scan_polygons_safe (buf : pointer) (qlng qlat : float) :
  forall count off,
    Forall (safe_step qlng) (fst (scan_polygons buf qlng qlat count off)).
Proof.
  induction count as [|count IH]; intros off; cbn [scan_polygons].
  - apply Forall_nil.
  - apply bind_steps.
    + unfold scan_polygon. apply bind_steps.
      { apply Forall_cons; [split; [exact I|reflexivity]|apply Forall_nil]. }
      intros _ _. apply bind_steps; [apply Forall_nil|]. intros v _.
      apply bind_steps; [apply edge_loop_safe|]. intros c _. apply Forall_nil.
    + intros r _. destruct (fst r); [apply Forall_nil|apply IH].
Qed.

(** C10. Whatever the Polygon Set holds and whatever the query, every
    division of a run of the hit test, up to its end or to the first read
    outside the buffer, is performed after the straddling test has
    succeeded on the two longitudes whose difference is the divisor, and
    its divisor is not a zero. *)
Theorem hit_test_never_divides_by_zero (data : option geo_data)
    (qlng qlat : float) :
  Forall (fun e => guarded_division qlng e /\ divides_by_zero e = false)
    (fst (geo_data_hit_test_run data qlng qlat)).
Proof.
  destruct data as [d|]; cbn [geo_data_hit_test_run].
  - apply scan_polygons_safe.
  - apply Forall_nil.
Qed.

(** The run on the unit square does divide: twice for the query
    (0.5, 0.5), by 1 and by -1. *)
Example unit_square_divisions :
  filter (fun e => match e with EvDivide _ => true | _ => false end)
    (fst (geo_data_hit_test_run (Some unit_square_set) 0.5 0.5))
  = [EvDivide 1; EvDivide (-1)].
Proof. vm_compute. reflexivity. Qed.

(** * Further properties of the code *)

(** ** Files the loader accepts *)

(** X1. A file of less than 2^32 bytes that could be opened, measured and
    buffered, starts with the magic and declares N > 0 polygons whose
    records all lie inside the payload is accepted; the set returned holds
    N and the whole payload, and on it the hit test never reads outside
    the buffer and answers by the even-odd rule over the N polygons. *)
Theorem fitting_file_loads_and_answers (sys : system) (path : string)
    (contents : list byte) (exts : list Z) :
  fopen sys path = Some contents ->
  fseek_end_fails sys = false ->
  fseek_set_fails sys = false ->
  malloc_fails sys = false ->
  8 < Z.of_nat (length contents) < 2 ^ 32 ->
  firstn 4 contents = magic ->
  declared_count contents <> 0 ->
  declared_extents (Block (payload contents))
    (Z.to_nat (declared_count contents)) 0 = Some exts ->
  total exts <= Z.of_nat (length (payload contents)) ->
  exists polys,
    geo_data_create sys path
    = Created {| num_polygons := declared_count contents;
                 polygons := Block (payload contents) |}
    /\ decode_set {| num_polygons := declared_count contents;
                     polygons := Block (payload contents) |} = Some polys
    /\ forall qlng qlat,
         geo_data_hit_test
           (Some {| num_polygons := declared_count contents;
                    polygons := Block (payload contents) |}) qlng qlat
         = Some (existsb (fun p => inside qlng qlat (snd p)) polys).
Proof.
  intros Hopen Hend Hset Hmalloc Hlen Hmagic Hn Hext Hfit.
  pose proof (file_len_small contents ltac:(lia)) as Hfl.
  pose proof (payload_length contents ltac:(lia)) as Hp. rewrite Hfl in Hp.
  destruct (fitting_records_decode (payload contents) _ 0 exts ltac:(lia) Hext
              ltac:(lia)) as [polys Hpolys].
  exists polys. split; [|split].
  - rewrite (create_branches sys path contents Hopen), Hend, Hset, Hmalloc, Hfl.
    destruct (Z.ltb_spec (Z.of_nat (length contents)) 8); [lia|].
    change (fread contents 0 4) with (firstn 4 contents).
    rewrite (proj2 (header_differs_magic _) Hmagic).
    destruct (Z.eqb_spec (declared_count contents) 0); [contradiction|].
    destruct (Z.eqb_spec (Z.of_nat (length contents)) 8); [lia|].
    rewrite <- (Nat.add_0_r (Z.to_nat (declared_count contents))).
    rewrite (verify_fitting_prefix (payload contents) ltac:(lia) _ 0%nat 0 exts
               ltac:(lia) Hext ltac:(lia)).
    reflexivity.
  - exact Hpolys.
  - intros qlng qlat.
    exact (proj1 (scan_polygons_decoded (Block (payload contents)) qlng qlat
                    ltac:(cbn [block_bytes]; lia) _ _ _ Hpolys)).
Qed.

Lemma fitting_file_loads_and_answers_witness :
  exists polys,
    geo_data_create (plain_system unit_square_file) "square.geo"
    = Created {| num_polygons := declared_count unit_square_file;
                 polygons := Block (payload unit_square_file) |}
    /\ decode_set {| num_polygons := declared_count unit_square_file;
                     polygons := Block (payload unit_square_file) |} = Some polys
    /\ forall qlng qlat,
         geo_data_hit_test
           (Some {| num_polygons := declared_count unit_square_file;
                    polygons := Block (payload unit_square_file) |}) qlng qlat
         = Some (existsb (fun p => inside qlng qlat (snd p)) polys).
Proof.
  apply (fitting_file_loads_and_answers (plain_system unit_square_file)
           "square.geo" unit_square_file [68]);
    try reflexivity.
  - split; vm_compute; reflexivity.
  - vm_compute. discriminate.
Defined.

(** ** Truncated files *)

Lemma slice_prefix (bytes : list byte) (k : nat) (off : Z) (n : nat)
    (bs : list byte) :
  slice (Block (firstn k bytes)) off n = Some bs ->
  slice (Block bytes) off n = Some bs.
Proof.
  unfold slice. rewrite length_firstn.
  destruct (0 <=? off) eqn:H0; cbn [andb]; [|discriminate].
  destruct (off + Z.of_nat n <=? Z.of_nat (Nat.min k (length bytes))) eqn:H1;
    [|discriminate].
  apply Z.leb_le in H0, H1.
  destruct (Z.leb_spec (off + Z.of_nat n) (Z.of_nat (length bytes))); [|lia].
  intros Hs. apply some_eq in Hs. subst bs. f_equal.
  rewrite skipn_firstn_comm, firstn_firstn. f_equal. lia.
Qed.

Lemma load_u32_prefix (bytes : list byte) (k : nat) (off v : Z) :
  load_u32 (Block (firstn k bytes)) off = Some v ->
  load_u32 (Block bytes) off = Some v.
Proof.
  unfold load_u32.
  destruct (slice (Block (firstn k bytes)) off 4) as [bs|] eqn:E; [|discriminate].
  rewrite (slice_prefix _ _ _ _ _ E). trivial.
Qed.

(** On a prefix of a buffer whose records fit, the walk meets the same
    counts as long as it can read them, and no sum wraps. *)
Lemma prefix_walk (bytes : list byte) (k : nat) :
  Z.of_nat (length bytes) < 2 ^ 32 ->
  forall count off exts,
    0 <= off ->
    declared_extents (Block bytes) count off = Some exts ->
    off + total exts <= Z.of_nat (length bytes) ->
    no_overflow (Block (firstn k bytes)) count off = true
    /\ forall exts',
         declared_extents (Block (firstn k bytes)) count off = Some exts' ->
         exts' = exts.
Proof.
  intros Hlen. induction count as [|count IH]; intros off exts H0 Hext Hfit;
    cbn [declared_extents no_overflow] in *.
  - apply some_eq in Hext. subst exts. split; [reflexivity|].
    intros exts' H. apply some_eq in H. congruence.
  - destruct (load_u32 (Block bytes) off) as [v|] eqn:Hv; [|discriminate].
    destruct (declared_extents (Block bytes) count (off + 4 + 16 * v))
      as [rest|] eqn:Hr; [|discriminate].
    cbn [option_map] in Hext. apply some_eq in Hext. subst exts.
    destruct (declared_extents_total _ _ _ _ Hr) as [Ht _].
    destruct (load_u32_inside _ _ _ Hv) as (Hrange & _ & _).
    change (total ((4 + 16 * v) :: rest)) with (4 + 16 * v + total rest) in Hfit.
    destruct (IH (off + 4 + 16 * v) rest ltac:(lia) Hr ltac:(lia)) as [IHno IHsame].
    destruct (load_u32 (Block (firstn k bytes)) off) as [v'|] eqn:Hv'.
    + pose proof (load_u32_prefix _ _ _ _ Hv') as Hsame.
      rewrite Hv in Hsame. apply some_eq in Hsame. subst v'.
      split.
      * rewrite IHno, orb_true_r.
        destruct (Z.ltb_spec (off + 4) (2 ^ 32)); [|lia].
        destruct (Z.ltb_spec (off + 4 + 16 * v) (2 ^ 32)); [|lia].
        reflexivity.
      * intros exts' H.
        destruct (declared_extents (Block (firstn k bytes)) count
                    (off + 4 + 16 * v)) as [rest'|] eqn:Hr'; [|discriminate].
        cbn [option_map] in H. apply some_eq in H. subst exts'.
        f_equal. apply IHsame. reflexivity.
    + split; [|discriminate].
      destruct (Z.ltb_spec (off + 4) (2 ^ 32)); [reflexivity|lia].
Qed.

Lemma fread_prefix (contents : list byte) (m : nat) (pos n : Z) :
  0 <= pos -> 0 <= n -> pos + n <= Z.of_nat m ->
  fread (firstn m contents) pos n = fread contents pos n.
Proof.
  intros Hp Hn Hle. unfold fread.
  rewrite skipn_firstn_comm, firstn_firstn. f_equal. lia.
Qed.

Lemma payload_prefix (contents : list byte) (m : nat) :
  Z.of_nat (length contents) < 2 ^ 32 ->
  (8 <= m <= length contents)%nat ->
  payload (firstn m contents) = firstn (m - 8) (payload contents).
Proof.
  intros Hlen Hm. unfold payload.
  rewrite !file_len_small by (rewrite ?length_firstn; lia).
  rewrite length_firstn, Nat.min_l by lia.
  rewrite !u32_small by lia. unfold fread.
  rewrite skipn_firstn_comm, !firstn_firstn. f_equal. lia.
Qed.

(** X2. Cutting bytes off the end of a file whose polygon records fill its
    payload exactly always makes the loader fail: no proper prefix of such
    a file is accepted, whatever the seeks and the allocator do. *)
Theorem truncated_file_is_rejected (sys : system) (path : string)
    (contents : list byte) (exts : list Z) (m : nat) :
  Z.of_nat (length contents) < 2 ^ 32 ->
  declared_extents (Block (payload contents))
    (Z.to_nat (declared_count contents)) 0 = Some exts ->
  total exts = Z.of_nat (length (payload contents)) ->
  (m < length contents)%nat ->
  fopen sys path = Some (firstn m contents) ->
  exists f, geo_data_create sys path = Failed f.
Proof.
  intros Hlen Hext Hexact Hm Hopen.
  rewrite (create_branches sys path _ Hopen).
  destruct (fseek_end_fails sys); [eauto|].
  destruct (fseek_set_fails sys); [eauto|].
  assert (Hlen' : length (firstn m contents) = m)
    by (rewrite length_firstn; lia).
  rewrite file_len_small by lia. rewrite Hlen'.
  destruct (Z.ltb_spec (Z.of_nat m) 8); [eauto|].
  destruct (header_differs (fread (firstn m contents) 0 4)); [eauto|].
  assert (Hcount : declared_count (firstn m contents) = declared_count contents)
    by (unfold declared_count; rewrite fread_prefix by lia; reflexivity).
  rewrite Hcount.
  pose proof (payload_length contents
                ltac:(rewrite file_len_small by lia; lia)) as Hp.
  rewrite file_len_small in Hp by lia.
  destruct (Z.eqb_spec (declared_count contents) 0) as [E0|E0].
  { exfalso. rewrite E0 in Hext. cbn [Z.to_nat declared_extents] in Hext.
    apply some_eq in Hext. subst exts. unfold total in Hexact.
    cbn [fold_right] in Hexact. lia. }
  destruct (malloc_fails sys); [eauto|].
  destruct (Z.eqb_spec (Z.of_nat m) 8); [eauto|].
  rewrite (payload_prefix contents m Hlen ltac:(lia)).
  set (cut := firstn (m - 8) (payload contents)).
  assert (Hcut : Z.of_nat (length cut) = Z.of_nat m - 8)
    by (unfold cut; rewrite length_firstn; lia).
  destruct (prefix_walk (payload contents) (m - 8) ltac:(lia) _ 0 exts
              ltac:(lia) Hext ltac:(lia)) as [Hno Hsame].
  fold cut in Hno, Hsame.
  pose proof (verify_exact cut ltac:(lia)
                (Z.to_nat (declared_count contents)) 0 ltac:(lia) Hno) as Hex.
  destruct (verify (Block cut) (Z.of_nat (length cut))
              (Z.to_nat (declared_count contents)) 0 0) as [|f|].
  - exfalso. destruct Hex as (exts' & Hext' & Hfit').
    rewrite (Hsame _ Hext') in Hfit'. lia.
  - eauto.
  - contradiction.
Qed.

Lemma truncated_file_is_rejected_witness :
  exists f,
    geo_data_create (plain_system (firstn 30 unit_square_file)) "cut.geo"
    = Failed f.
Proof.
  apply (truncated_file_is_rejected (plain_system (firstn 30 unit_square_file))
           "cut.geo" unit_square_file [68] 30).
  - vm_compute. reflexivity.
  - vm_compute. reflexivity.
  - vm_compute. reflexivity.
  - vm_compute. lia.
  - reflexivity.
Defined.

(** ** What the loader leaves open and allocated *)

Ltac split_branches :=
  repeat match goal with
         | |- context [snd (if ?b then _ else _)] => destruct b eqn:?
         end.

Lemma create_run_result (sys : system) (path : string) :
  snd (geo_data_create_run sys path) = geo_data_create sys path.
Proof.
  unfold geo_data_create_run, geo_data_create.
  destruct (fopen sys path) as [contents|]; [|reflexivity].
  split_branches; try reflexivity.
  destruct (verify _ _ _ _ _); reflexivity.
Qed.

Lemma verify_rejections (buf : pointer) (buffer_len : Z) :
  forall count offset polygon_ptr f,
    verify buf buffer_len count offset polygon_ptr = Rejected f ->
    f = CountOutsidePayload \/ f = VerticesOutsidePayload.
Proof.
  induction count as [|count IH]; intros offset polygon_ptr f; cbn [verify].
  - discriminate.
  - destruct (u32 (offset + 4) >? buffer_len); [intros H; left; congruence|].
    destruct (load_u32 buf polygon_ptr) as [v|]; [|discriminate].
    destruct (_ >? buffer_len); [intros H; right; congruence|].
    apply IH.
Qed.

(** X3. [geo_data_create] closes the file it opened on every path that
    ends before the verification loop, and on none that goes through it:
    when it returns a set with N > 0, or fails at one of the two tests of
    the loop, the handle is left open. *)
Theorem create_closes_file_unless_verified (sys : system) (path : string) :
  open_handles (fst (geo_data_create_run sys path))
  = if reached_verification (geo_data_create sys path) then 1 else 0.
Proof.
  rewrite <- create_run_result. unfold geo_data_create_run.
  destruct (fopen sys path) as [contents|]; [|reflexivity].
  split_branches; try reflexivity.
  - cbn [snd reached_verification num_polygons].
    match goal with H : (_ =? 0) = true |- _ => rewrite H end. reflexivity.
  - destruct (verify _ _ _ _ _) as [|f|] eqn:Ev.
    + cbn [snd reached_verification num_polygons].
      match goal with H : (_ =? 0) = false |- _ => rewrite H end. reflexivity.
    + destruct (verify_rejections _ _ _ _ _ _ Ev) as [-> | ->]; reflexivity.
    + reflexivity.
Qed.

(** X4. On every failure but one [geo_data_create] has freed what it
    allocated; when the allocation of the payload buffer fails (-1007) it
    returns without freeing the [geo_data] structure allocated before.  On
    success the structure, and for N > 0 the buffer, stay allocated. *)
Theorem create_frees_on_failure_but_one (sys : system) (path : string) :
  match geo_data_create sys path with
  | Created d =>
      live_structs (fst (geo_data_create_run sys path)) = 1
      /\ live_buffers (fst (geo_data_create_run sys path))
         = (if num_polygons d =? 0 then 0 else 1)
  | Failed AllocFailed =>
      live_structs (fst (geo_data_create_run sys path)) = 1
      /\ live_buffers (fst (geo_data_create_run sys path)) = 0
  | Failed _ =>
      live_structs (fst (geo_data_create_run sys path)) = 0
      /\ live_buffers (fst (geo_data_create_run sys path)) = 0
  | Undefined =>
      live_structs (fst (geo_data_create_run sys path)) = 1
      /\ live_buffers (fst (geo_data_create_run sys path)) = 1
  end.
Proof.
  rewrite <- create_run_result. unfold geo_data_create_run.
  destruct (fopen sys path) as [contents|]; [|split; reflexivity].
  split_branches; try (split; reflexivity).
  - cbn [snd num_polygons].
    match goal with H : (_ =? 0) = true |- _ => rewrite H end.
    split; reflexivity.
  - destruct (verify _ _ _ _ _) as [|f|] eqn:Ev.
    + cbn [snd num_polygons].
      match goal with H : (_ =? 0) = false |- _ => rewrite H end.
      split; reflexivity.
    + destruct (verify_rejections _ _ _ _ _ _ Ev) as [-> | ->];
        split; reflexivity.
    + split; reflexivity.
Qed.

(** The unit square file: loaded, with the handle left open. *)
Example unit_square_file_effects :
  fst (geo_data_create_run (plain_system unit_square_file) "square.geo")
  = [Fopen; MallocStruct; MallocBuffer 68].
Proof. vm_compute. reflexivity. Qed.

(** ** The constructor and the destructor around the loader *)

(** X5. Whenever [geo_data_create] returns a set, the constructor keeps
    it and still throws: [status] is left at 0, the test [status <= 0]
    holds and the switch falls to its default, the message "Unknown". *)
Theorem constructor_throws_on_every_successful_load (sys : system)
    (path : string) (d : geo_data) :
  geo_data_create sys path = Created d ->
  GeoData_new sys (Some path)
  = Some ({| geo_data_ := Some d |}, Some "Unknown"%string).
Proof. intros H. unfold GeoData_new. rewrite H. reflexivity. Qed.

Lemma constructor_throws_on_every_successful_load_witness :
  GeoData_new (plain_system unit_square_file) (Some "square.geo"%string)
  = Some ({| geo_data_ := Some unit_square_set |}, Some "Unknown"%string).
Proof.
  apply (constructor_throws_on_every_successful_load
           (plain_system unit_square_file) "square.geo" unit_square_set).
  vm_compute. reflexivity.
Defined.

(** X6. When [geo_data_create] fails, the constructor wraps the null
    pointer and throws: the text of [strerror] when the file could not be
    opened, and otherwise a message that is never "Unknown" and that no
    other failure of the loader gets.  The object then answers false to
    every query without a step. *)
Theorem failed_load_is_reported (sys : system) (path : string)
    (f : load_failure) :
  geo_data_create sys path = Failed f ->
  exists msg,
    GeoData_new sys (Some path) = Some ({| geo_data_ := None |}, Some msg)
    /\ (f = OpenFailed -> msg = strerror_errno sys)
    /\ (f <> OpenFailed ->
        msg <> "Unknown"%string
        /\ forall f', f' <> OpenFailed -> f' <> f ->
                      status_message sys (status_of f') <> msg)
    /\ forall arg0 arg1,
         Contains_run {| geo_data_ := None |} arg0 arg1 = ([], Some false).
Proof.
  intros H. exists (status_message sys (status_of f)).
  split; [|split; [|split]].
  - unfold GeoData_new. rewrite H. destruct f; reflexivity.
  - intros ->. reflexivity.
  - intros Hf. split.
    + destruct f; try contradiction; discriminate.
    + intros f' Hf' Hne.
      destruct f; try contradiction; destruct f'; try contradiction;
        discriminate.
  - intros arg0 arg1. apply contains_no_scan. reflexivity.
Qed.

Lemma failed_load_is_reported_witness :
  exists msg,
    GeoData_new (plain_system bad_magic_file) (Some "magic.geo"%string)
    = Some ({| geo_data_ := None |}, Some msg)
    /\ (HeaderMismatch = OpenFailed -> msg = "No such file or directory"%string)
    /\ (HeaderMismatch <> OpenFailed ->
        msg <> "Unknown"%string
        /\ forall f', f' <> OpenFailed -> f' <> HeaderMismatch ->
                      status_message (plain_system bad_magic_file) (status_of f')
                      <> msg)
    /\ forall arg0 arg1,
         Contains_run {| geo_data_ := None |} arg0 arg1 = ([], Some false).
Proof.
  apply (failed_load_is_reported (plain_system bad_magic_file) "magic.geo"
           HeaderMismatch).
  vm_compute. reflexivity.
Defined.

(** X7. Destroying a loaded set frees its [polygons] pointer and then the
    structure.  For a set loaded with N > 0 the pointer is the payload
    buffer, which is not empty; for a set loaded with N = 0 it is a pointer
    that was never assigned. *)
Theorem destroy_loaded_set (sys : system) (path : string) (d : geo_data) :
  geo_data_create sys path = Created d ->
  GeoData_delete {| geo_data_ := Some d |} = [FreeBlock (polygons d); FreeStruct]
  /\ (num_polygons d = 0 -> polygons d = Uninitialized)
  /\ (num_polygons d <> 0 ->
      exists bytes, polygons d = Block bytes /\ bytes <> []).
Proof.
  intros H. split; [reflexivity|].
  destruct (fopen sys path) as [contents|] eqn:Hopen;
    [|unfold geo_data_create in H; rewrite Hopen in H; discriminate].
  rewrite (create_branches sys path contents Hopen) in H.
  destruct (fseek_end_fails sys); [discriminate|].
  destruct (fseek_set_fails sys); [discriminate|].
  destruct (Z.ltb_spec (file_len contents) 8); [discriminate|].
  destruct (header_differs (fread contents 0 4)); [discriminate|].
  destruct (Z.eqb_spec (declared_count contents) 0) as [E0|E0].
  - injection H as <-. cbn [num_polygons polygons].
    split; [reflexivity|]. intros Hn. contradiction.
  - destruct (malloc_fails sys); [discriminate|].
    destruct (Z.eqb_spec (file_len contents) 8) as [E8|E8]; [discriminate|].
    destruct (verify _ _ _ _ _); try discriminate.
    injection H as <-. cbn [num_polygons polygons].
    split; [intros Hn; contradiction|]. intros _.
    exists (payload contents). split; [reflexivity|].
    pose proof (payload_length contents ltac:(lia)) as Hp.
    intros Hnil. rewrite Hnil in Hp. cbn [length Z.of_nat] in Hp. lia.
Qed.

Lemma destroy_loaded_set_witness :
  GeoData_delete {| geo_data_ := Some unit_square_set |}
  = [FreeBlock (polygons unit_square_set); FreeStruct]
  /\ (num_polygons unit_square_set = 0 -> polygons unit_square_set = Uninitialized)
  /\ (num_polygons unit_square_set <> 0 ->
      exists bytes, polygons unit_square_set = Block bytes /\ bytes <> []).
Proof.
  apply (destroy_loaded_set (plain_system unit_square_file) "square.geo"
           unit_square_set).
  vm_compute. reflexivity.
Defined.

(** ** Queries that cannot be contained *)

Lemma SFcompare_nan_r (x : spec_float) : SFcompare x S754_nan = None.
Proof. destruct x; reflexivity. Qed.

Lemma leb_nan_r (x : float) : (x <=? nan)%float = false.
Proof.
  rewrite leb_spec. change (Prim2SF nan) with S754_nan.
  unfold SFleb. rewrite SFcompare_nan_r. reflexivity.
Qed.

Lemma ltb_nan_l (x : float) : (nan <? x)%float = false.
Proof. rewrite ltb_spec. reflexivity. Qed.

Lemma ltb_leb_exclusive (a b : float) :
  (a <? b)%float = true -> (b <=? a)%float = false.
Proof.
  rewrite ltb_spec, leb_spec. unfold SFltb, SFleb.
  rewrite (SFcompare_antisym (Prim2SF a) (Prim2SF b)).
  destruct (SFcompare (Prim2SF a) (Prim2SF b)) as [[| |]|]; simpl;
    intros H; try discriminate; reflexivity.
Qed.

Section NoToggle.

Variable buf : pointer.
Variables qlng qlat : float.

(** No pair of longitudes straddles the query longitude, or the query
    latitude is below nothing. *)
Hypothesis no_toggle :
  (forall ilng jlng, straddles qlng ilng jlng = false)
  \/ (forall x, (qlat <? x)%float = false).

Lemma edge_step_keeps_flag (coords i j : Z) (c : bool) :
  snd (edge_step buf qlng qlat coords i j c) = None
  \/ snd (edge_step buf qlng qlat coords i j c) = Some c.
Proof.
  unfold edge_step, bind, lift, emit, ret. cbn [fst snd].
  destruct (load_double buf (coords + 16 * i)) as [ilng|]; [|left; reflexivity].
  cbn [fst snd].
  destruct (load_double buf (coords + 16 * j)) as [jlng|]; [|left; reflexivity].
  cbn [fst snd].
  destruct (straddles qlng ilng jlng) eqn:E; [|right; reflexivity].
  cbn [fst snd].
  destruct (load_double buf (coords + 16 * j + 8)) as [jlat|];
    [|left; reflexivity].
  cbn [fst snd].
  destruct (load_double buf (coords + 16 * i + 8)) as [ilat|];
    [|left; reflexivity].
  cbn [fst snd]. right.
  destruct no_toggle as [Hs|Hl].
  - rewrite Hs in E. discriminate.
  - rewrite Hl. reflexivity.
Qed.

Lemma edge_loop_keeps_flag (coords : Z) :
  forall count i j c,
    snd (edge_loop buf qlng qlat coords count i j c) = None
    \/ snd (edge_loop buf qlng qlat coords count i j c) = Some c.
Proof.
  induction count as [|count IH]; intros i j c; cbn [edge_loop].
  - right. reflexivity.
  - destruct (edge_step_keeps_flag coords i j c) as [E|E].
    + left. rewrite (bind_none _ _ E). reflexivity.
    + rewrite (bind_some _ _ _ E). cbn [snd]. apply IH.
Qed.

Lemma scan_polygon_keeps_flag (off : Z) :
  snd (scan_polygon buf qlng qlat off) = None
  \/ exists v, snd (scan_polygon buf qlng qlat off) = Some (false, v).
Proof.
  unfold scan_polygon.
  rewrite (bind_some (emit (EvPolygon off)) _ tt) by reflexivity. cbn [snd].
  destruct (load_u32 buf off) as [v|] eqn:Hv.
  - rewrite (bind_some (lift (Some v)) _ v eq_refl). cbn [snd].
    destruct (edge_loop_keeps_flag (off + 4) (Z.to_nat (to_int v)) 0
                (to_int v - 1) false) as [E|E].
    + left. rewrite (bind_none _ _ E). reflexivity.
    + right. exists v. rewrite (bind_some _ _ _ E). reflexivity.
  - left. rewrite bind_none; reflexivity.
Qed.

Lemma scan_polygons_never_hits :
  forall count off, snd (scan_polygons buf qlng qlat count off) <> Some true.
Proof.
  induction count as [|count IH]; intros off; cbn [scan_polygons].
  - discriminate.
  - destruct (scan_polygon_keeps_flag off) as [E|[v E]].
    + rewrite (bind_none _ _ E). discriminate.
    + rewrite (bind_some _ _ _ E). cbn [fst snd]. apply IH.
Qed.

End NoToggle.

Lemma straddles_nan (ilng jlng : float) : straddles nan ilng jlng = false.
Proof. unfold straddles. rewrite !leb_nan_r. reflexivity. Qed.

Lemma hit_test_nan_lng (data : option geo_data) (qlat : float) :
  geo_data_hit_test data nan qlat <> Some true.
Proof.
  unfold geo_data_hit_test, geo_data_hit_test_run.
  destruct data as [d|]; [|discriminate].
  apply scan_polygons_never_hits. left. apply straddles_nan.
Qed.

Lemma hit_test_nan_lat (data : option geo_data) (qlng : float) :
  geo_data_hit_test data qlng nan <> Some true.
Proof.
  unfold geo_data_hit_test, geo_data_hit_test_run.
  destruct data as [d|]; [|discriminate].
  apply scan_polygons_never_hits. right. apply ltb_nan_l.
Qed.

Lemma contains_follows_hit_test (obj : GeoData) (qlng qlat : float) :
  Contains obj (Some qlng) (Some qlat) = Some true ->
  geo_data_hit_test (geo_data_ obj) qlng qlat = Some true.
Proof.
  unfold Contains, Contains_run, geo_data_hit_test.
  destruct (_ || _)%bool; [discriminate|].
  unfold bind.
  destruct (snd (geo_data_hit_test_run (geo_data_ obj) qlng qlat)) as [[|]|];
    cbn [snd ret]; try discriminate. reflexivity.
Qed.

(** X8. A query with a NaN coordinate is never answered true, whatever
    the set holds: with a NaN longitude no pair of vertices straddles it,
    with a NaN latitude no edge lies above it, so no flag is ever set, by
    the hit test or by [contains]. *)
Theorem nan_query_is_not_contained (data : option geo_data) (obj : GeoData)
    (x : float) :
  geo_data_hit_test data nan x <> Some true
  /\ geo_data_hit_test data x nan <> Some true
  /\ Contains obj (Some nan) (Some x) <> Some true
  /\ Contains obj (Some x) (Some nan) <> Some true.
Proof.
  split; [apply hit_test_nan_lng|]. split; [apply hit_test_nan_lat|].
  split; intros H; apply contains_follows_hit_test in H.
  - exact (hit_test_nan_lng _ _ H).
  - exact (hit_test_nan_lat _ _ H).
Qed.

Lemma crossings_none (qlng qlat : float)
    (es : list (geo_data_coordinate * geo_data_coordinate)) :
  (forall e, In e es -> crosses qlng qlat (fst e) (snd e) = false) ->
  crossings qlng qlat es = 0%nat.
Proof.
  unfold crossings. induction es as [|e es IH]; intros H; [reflexivity|].
  cbn [filter]. rewrite (H e (or_introl eq_refl)).
  apply IH. intros e' He'. apply H. right. exact He'.
Qed.

Lemma edges_join_vertices (vs : list geo_data_coordinate)
    (e : geo_data_coordinate * geo_data_coordinate) :
  In e (edges vs) -> In (fst e) vs /\ In (snd e) vs.
Proof.
  unfold edges. intros H. apply in_map_iff in H.
  destruct H as (i & <- & Hi). apply in_seq in Hi. cbn [fst snd].
  split; apply nth_In; [lia|]. destruct i; cbn [previous]; lia.
Qed.

Lemma beside_polygon_is_outside (qlng qlat : float)
    (vs : list geo_data_coordinate) :
  Forall (fun v => (qlng <? lng v)%float = true) vs
  \/ Forall (fun v => (qlng <? lng v)%float = false) vs ->
  inside qlng qlat vs = false.
Proof.
  intros H. unfold inside. rewrite crossings_none; [reflexivity|].
  intros e He. destruct (edges_join_vertices vs e He) as [Hi Hj].
  unfold crosses, straddles.
  destruct H as [Hwest|Heast].
  - rewrite Forall_forall in Hwest.
    rewrite (ltb_leb_exclusive _ _ (Hwest _ Hi)).
    rewrite (ltb_leb_exclusive _ _ (Hwest _ Hj)). reflexivity.
  - rewrite Forall_forall in Heast.
    rewrite (Heast _ Hi), (Heast _ Hj), !andb_false_r. reflexivity.
Qed.

(** X9. On a decoded Polygon Set the hit test answers false when, for
    each polygon, the query longitude is less than the longitude of every
    vertex, or not less than the longitude of any vertex: only a polygon
    with a vertex on either side of the query longitude can contain it. *)
Theorem query_beside_every_polygon (d : geo_data) (qlng qlat : float)
    (polys : list (Z * list geo_data_coordinate)) :
  Z.of_nat (length (block_bytes (polygons d))) < 2 ^ 32 ->
  decode_set d = Some polys ->
  Forall (fun p =>
            Forall (fun v => (qlng <? lng v)%float = true) (snd p)
            \/ Forall (fun v => (qlng <? lng v)%float = false) (snd p)) polys ->
  geo_data_hit_test (Some d) qlng qlat = Some false.
Proof.
  intros Hlen Hdec Hbeside.
  unfold geo_data_hit_test, geo_data_hit_test_run.
  rewrite (proj1 (scan_polygons_decoded _ qlng qlat Hlen _ _ _ Hdec)).
  f_equal. clear Hdec. induction Hbeside as [|p polys Hp _ IH]; [reflexivity|].
  cbn [existsb]. rewrite (beside_polygon_is_outside qlng qlat _ Hp), IH.
  reflexivity.
Qed.

Lemma query_beside_every_polygon_witness :
  geo_data_hit_test (Some unit_square_set) 2 0.5 = Some false.
Proof.
  apply (query_beside_every_polygon unit_square_set 2 0.5
           [(0, unit_square_vertices)]).
  - vm_compute. reflexivity.
  - vm_compute. reflexivity.
  - apply Forall_cons; [|apply Forall_nil]. right.
    repeat (apply Forall_cons; [vm_compute; reflexivity|]). apply Forall_nil.
Defined.

(** ** What a true answer of [contains] means *)

Lemma Prim2SF_nan_only (x : float) : Prim2SF x = S754_nan -> x = nan.
Proof.
  intros H. rewrite <- (SF2Prim_Prim2SF x), H. reflexivity.
Qed.

Lemma ltb_false_leb (x y : float) :
  (x <? y)%float = false -> x <> nan -> y <> nan -> (y <=? x)%float = true.
Proof.
  rewrite ltb_spec, leb_spec. unfold SFltb, SFleb. intros H Hx Hy.
  rewrite (SFcompare_antisym (Prim2SF x) (Prim2SF y)).
  assert (Hx' : Prim2SF x <> S754_nan)
    by (intros E; apply Hx, Prim2SF_nan_only, E).
  assert (Hy' : Prim2SF y <> S754_nan)
    by (intros E; apply Hy, Prim2SF_nan_only, E).
  destruct (SFcompare (Prim2SF x) (Prim2SF y)) as [[| |]|] eqn:E; simpl;
    try reflexivity; try discriminate.
  exfalso.
  destruct (Prim2SF x) as [sx|sx| |sx mx ex]; try contradiction;
    destruct (Prim2SF y) as [sy|sy| |sy my ey]; try contradiction;
    simpl in E; try discriminate; destruct sx; discriminate.
Qed.

(** X10. [contains] answers true only when both coordinates were given,
    both lie in the closed range from -180 to 180, and the hit test on the
    wrapped set returned true for them. *)
Theorem contains_true_is_in_range (obj : GeoData) (arg0 arg1 : option float) :
  Contains obj arg0 arg1 = Some true ->
  exists qlng qlat,
    arg0 = Some qlng /\ arg1 = Some qlat
    /\ (-180 <=? qlng)%float = true /\ (qlng <=? 180)%float = true
    /\ (-180 <=? qlat)%float = true /\ (qlat <=? 180)%float = true
    /\ geo_data_hit_test (geo_data_ obj) qlng qlat = Some true.
Proof.
  intros H.
  destruct arg0 as [qlng|]; [|discriminate H].
  destruct arg1 as [qlat|].
  2:{ exfalso. unfold Contains, Contains_run in H.
      change ((-320 <? -180)%float) with true in H.
      rewrite orb_true_r in H. cbn [orb] in H. discriminate H. }
  pose proof (contains_follows_hit_test obj qlng qlat H) as Hhit.
  assert (Hlng : qlng <> nan)
    by (intros ->; exact (hit_test_nan_lng _ _ Hhit)).
  assert (Hlat : qlat <> nan)
    by (intros ->; exact (hit_test_nan_lat _ _ Hhit)).
  unfold Contains, Contains_run in H.
  destruct (qlng <? -180)%float eqn:E1; [discriminate H|].
  destruct (180 <? qlng)%float eqn:E2; [discriminate H|].
  destruct (qlat <? -180)%float eqn:E3; [discriminate H|].
  destruct (180 <? qlat)%float eqn:E4; [discriminate H|].
  assert (Hc1 : (-180)%float <> nan) by (intros E; vm_compute in E; discriminate E).
  assert (Hc2 : 180%float <> nan) by (intros E; vm_compute in E; discriminate E).
  exists qlng, qlat. repeat split; try assumption;
    apply ltb_false_leb; assumption.
Qed.

Lemma contains_true_is_in_range_witness :
  exists qlng qlat,
    Some 0.5%float = Some qlng /\ Some 0.5%float = Some qlat
    /\ (-180 <=? qlng)%float = true /\ (qlng <=? 180)%float = true
    /\ (-180 <=? qlat)%float = true /\ (qlat <=? 180)%float = true
    /\ geo_data_hit_test (geo_data_ {| geo_data_ := Some unit_square_set |})
         qlng qlat = Some true.
Proof.
  apply (contains_true_is_in_range {| geo_data_ := Some unit_square_set |}
           (Some 0.5%float) (Some 0.5%float)).
  vm_compute. reflexivity.
Defined.
